(** * coordinates.cc: angle parsing, dense linear algebra and frame rotations

    A shallow embedding of [src/coordinates.cc].

    - A C++ [double] is an element of a type [D] carrying the operations the
      file uses (class [Double]); nothing is assumed about them, so every
      statement proved for an arbitrary [D] holds for IEEE binary64
      (instance [binary64]) as well as for the exact reals (instance
      [R_double]).
    - [std::valarray<double>] is [list D], [valarray2d] is [list (list D)].
    - A call either returns, throws a C++ exception, or indexes a container
      out of range (undefined behaviour in C++): type [outcome]. *)

From Stdlib Require Import ZArith Ascii String.
From Stdlib Require Import Reals Lra.
From Stdlib Require Floats Uint63.
From stdpp Require Import base tactics option list strings.

(** ** Outcomes of a call *)

(** The exceptions of <stdexcept> that the file (or [std::stod]) throws,
    with their [what()] message. *)
Inductive exn : Type :=
  | length_error (what : string)
  | runtime_error (what : string)
  | invalid_argument (what : string)
  | out_of_range (what : string).

Inductive outcome (A : Type) : Type :=
  | Ok (a : A)
  | Throw (e : exn)
  | OutOfBounds.
Arguments Ok {A} a.
Arguments Throw {A} e.
Arguments OutOfBounds {A}.

#[global] Instance outcome_ret : MRet outcome := λ A a, Ok a.
#[global] Instance outcome_bind : MBind outcome := λ A B f m,
  match m with
  | Ok a => f a
  | Throw e => Throw e
  | OutOfBounds => OutOfBounds
  end.

(** The spec's error taxonomy, as the exceptions the code raises for it. *)
Definition DimensionError : exn := length_error "Illegal matrix dimensions.".
Definition FormatError : exn := length_error "Wrong input format".
Definition UnknownTransformationError : exn :=
  runtime_error "Connot find this transformation name".
Definition DomainError : exn := runtime_error "Error: point is at distance zero.".

(** [v[i]] on a [std::vector] or [std::valarray]: unchecked in C++. *)
Definition at_index {A} (v : list A) (i : nat) : outcome A :=
  match v !! i with
  | Some a => Ok a
  | None => OutOfBounds
  end.

(** [v[i] = a]. *)
Definition set_index {A} (v : list A) (i : nat) (a : A) : outcome (list A) :=
  if decide (i < length v) then Ok (<[i:=a]> v) else OutOfBounds.

(** [for (size_t i = 0; i < n; ++i) body], the loop state threaded through. *)
Fixpoint for_each {S} (idx : list nat) (body : nat → S → outcome S) (s : S)
  : outcome S :=
  match idx with
  | [] => Ok s
  | i :: idx' => s' ← body i s; for_each idx' body s'
  end.
Definition for_range {S} (n : nat) (body : nat → S → outcome S) (s : S)
  : outcome S := for_each (seq 0 n) body s.

(** ** The arithmetic of [double] *)

Class Double (D : Type) : Type := {
  lit : Z → D;                 (* a literal with an integer value: 0., 60., 1 *)
  d_pi : D;                    (* the macro PI of coordinates.hh *)
  d_add : D → D → D;
  d_mul : D → D → D;
  d_div : D → D → D;
  d_neg : D → D;
  d_eqb : D → D → bool;        (* operator== *)
  d_sqrt : D → D;
  d_cos : D → D;
  d_sin : D → D;
  d_atan2 : D → D → D;
}.

Declare Scope double_scope.
Delimit Scope double_scope with D.
Infix "+" := d_add : double_scope.
Infix "*" := d_mul : double_scope.
Infix "/" := d_div : double_scope.
Notation "- x" := (d_neg x) : double_scope.

(** ** String splitting *)

(** [split_string]: the [while (std::getline(ss, item, delim))] loop, one
    character of the stream at a time. [item] is what the running [getline]
    has extracted so far.
    - At a delimiter the [getline] succeeds with [item] (possibly empty) and
      the loop body pushes it, or skips it when it is empty and
      [skip_empty] is set.
    - At the end of the stream a [getline] that extracted something succeeds
      (the body pushes the non-empty [item]) and the next one fails; a
      [getline] that extracted nothing fails. Either way the loop ends. *)
Fixpoint split_loop (s : string) (delim : ascii) (skip_empty : bool)
    (item : string) : list string :=
  match s with
  | EmptyString =>
      if bool_decide (0 < String.length item) then [item] else []
  | String c s' =>
      if Ascii.eqb c delim then
        (if bool_decide (0 < String.length item) then [item]
         else if negb skip_empty then [item] else [])
        ++ split_loop s' delim skip_empty ""
      else split_loop s' delim skip_empty (item +:+ String c "")
  end.

Definition split_string (s : string) (delim : ascii) (skip_empty : bool)
  : list string := split_loop s delim skip_empty "".

(** ** Angle parsing *)

Section Parsing.
Context {D : Type} `{Double D}.
(** [std::stod]: returns the parsed number, or throws [invalid_argument]
    or [out_of_range]. *)
Variable stod : string → outcome D.

Local Open Scope double_scope.

(** The three [stod] calls are written left to right; C++ leaves their
    order unspecified, which matters only for which failure is seen first
    when several of them fail. *)
Definition parseDmsToDegrees (dms : string) (delimiter : ascii) : outcome D :=
  let elements := split_string dms delimiter true in
  if decide (3 < length elements) then Throw FormatError
  else
    e0 ← at_index elements 0; d ← stod e0;
    e1 ← at_index elements 1; m ← stod e1;
    e2 ← at_index elements 2; s ← stod e2;
    Ok (d + (m + s / lit 60) / lit 60).

Definition parseHmsToDegrees (hms : string) (delimiter : ascii) : outcome D :=
  deg ← parseDmsToDegrees hms delimiter; Ok (deg * lit 15).
End Parsing.

(** ** Dense linear algebra *)

(** [M[i][j]] and [M[i][j] = a] on a valarray of valarrays. *)
Definition get2 {A} (M : list (list A)) (i j : nat) : outcome A :=
  row ← at_index M i; at_index row j.

Definition set2 {A} (M : list (list A)) (i j : nat) (a : A)
  : outcome (list (list A)) :=
  row ← at_index M i; row' ← set_index row j a; set_index M i row'.

Section LinearAlgebra.
Context {D : Type} `{Double D}.
Local Open Scope double_scope.

(** Modelled from the spec: the type [valarray2d] is declared in
    coordinates.hh, which is not part of the sources. The spec's data model
    (a matrix is an ordered sequence of rows, each an ordered sequence of
    reals) and the name make it [std::valarray<std::valarray<double>>],
    whose constructor [valarray2d(row, n)] holds [n] copies of [row];
    [std::valarray<double>(m)] holds [m] zeros. *)
Definition valarray (m : nat) : list D := replicate m (lit 0).
Definition valarray2d (row : list D) (n : nat) : list (list D) :=
  replicate n row.

(** [dot(std::valarray<double> x, std::valarray<double> y)] *)
Definition dot_vv (x y : list D) : outcome D :=
  if decide (length x ≠ length y)
  then Throw (length_error "Illegal vector dimensions.")
  else
    for_range (length x) (λ i sum,
      xi ← at_index x i; yi ← at_index y i; Ok (sum + xi * yi)) (lit 0).

Definition transpose (A : list (list D)) : outcome (list (list D)) :=
  let m := length A in
  A0 ← at_index A 0;
  let n := length A0 in
  let C := valarray2d (valarray m) n in
  for_range m (λ i C,
    for_range n (λ j C,
      a ← get2 A i j; set2 C j i a) C) C.

(** [C[i][j] += A[i][k] * B[k][j]] *)
Definition dot_mm_step (A B : list (list D)) (i j k : nat) (C : list (list D))
  : outcome (list (list D)) :=
  c ← get2 C i j; a ← get2 A i k; b ← get2 B k j;
  set2 C i j (c + a * b).

(** [dot(valarray2d A, valarray2d B)] *)
Definition dot_mm (A B : list (list D)) : outcome (list (list D)) :=
  let mA := length A in
  A0 ← at_index A 0;
  let nA := length A0 in
  let mB := length B in
  B0 ← at_index B 0;
  let nB := length B0 in
  if decide (nA ≠ mB) then Throw DimensionError
  else
    let C := valarray2d (valarray mA) nB in
    for_range mA (λ i C,
      for_range nB (λ j C,
        for_range nA (λ k C, dot_mm_step A B i j k C) C) C) C.

(** [dot(valarray2d A, std::valarray<double> x)] *)
Definition dot_mv (A : list (list D)) (x : list D) : outcome (list D) :=
  let m := length A in
  A0 ← at_index A 0;
  let n := length A0 in
  if decide (length x ≠ n) then Throw DimensionError
  else
    for_range m (λ i y,
      for_range n (λ j y,
        yi ← at_index y i; a ← get2 A i j; xj ← at_index x j;
        set_index y i (yi + a * xj)) y) (valarray m).

(** [dot(std::valarray<double> x, valarray2d A)] *)
Definition dot_vm (x : list D) (A : list (list D)) : outcome (list D) :=
  let m := length A in
  A0 ← at_index A 0;
  let n := length A0 in
  if decide (length x ≠ m) then Throw DimensionError
  else
    for_range n (λ j y,
      for_range m (λ i y,
        yj ← at_index y j; a ← get2 A i j; xi ← at_index x i;
        set_index y j (yj + a * xi)) y) (valarray n).
End LinearAlgebra.

(** ** Rotation matrices *)

Section Rotations.
Context {D : Type} `{Double D}.
Local Open Scope double_scope.

(** The matrix starts as 3x3 zeros; each branch assigns its nine entries.
    No branch is taken for an axis outside x, X, y, Y, z, Z, and the
    function returns in every case. *)
Definition elementaryRotationMatrix (axis : string) (angle : D)
  : outcome (list (list D)) :=
  let mat := valarray2d (valarray 3) 3 in
  if bool_decide (axis = "x" ∨ axis = "X") then
    mat ← set2 mat 0 0 (lit 1);
    mat ← set2 mat 0 1 (lit 0);
    mat ← set2 mat 0 2 (lit 0);
    mat ← set2 mat 1 0 (lit 0);
    mat ← set2 mat 1 1 (d_cos angle);
    mat ← set2 mat 1 2 (d_sin angle);
    mat ← set2 mat 2 0 (lit 0);
    mat ← set2 mat 2 1 (- d_sin angle);
    mat ← set2 mat 2 2 (d_cos angle);
    Ok mat
  else if bool_decide (axis = "y" ∨ axis = "Y") then
    mat ← set2 mat 0 0 (d_cos angle);
    mat ← set2 mat 0 1 (lit 1);
    mat ← set2 mat 0 2 (- d_sin angle);
    mat ← set2 mat 1 0 (lit 0);
    mat ← set2 mat 1 1 (lit 1);
    mat ← set2 mat 1 2 (lit 0);
    mat ← set2 mat 2 0 (d_sin angle);
    mat ← set2 mat 2 1 (lit 0);
    mat ← set2 mat 2 2 (d_cos angle);
    Ok mat
  else if bool_decide (axis = "z" ∨ axis = "Z") then
    mat ← set2 mat 0 0 (d_cos angle);
    mat ← set2 mat 0 1 (d_sin angle);
    mat ← set2 mat 0 2 (lit 0);
    mat ← set2 mat 1 0 (- d_sin angle);
    mat ← set2 mat 1 1 (d_cos angle);
    mat ← set2 mat 1 2 (lit 0);
    mat ← set2 mat 2 0 (lit 0);
    mat ← set2 mat 2 1 (lit 0);
    mat ← set2 mat 2 2 (lit 1);
    Ok mat
  else Ok mat.

(** The conventional elementary rotations, in the layout the spec gives for
    the x axis (the row and column of the axis are those of the identity). *)
Definition rotation_x_spec (a : D) : list (list D) :=
  [ [lit 1; lit 0; lit 0];
    [lit 0; d_cos a; d_sin a];
    [lit 0; - d_sin a; d_cos a] ].
Definition rotation_y_spec (a : D) : list (list D) :=
  [ [d_cos a; lit 0; - d_sin a];
    [lit 0; lit 1; lit 0];
    [d_sin a; lit 0; d_cos a] ].
Definition rotation_z_spec (a : D) : list (list D) :=
  [ [d_cos a; d_sin a; lit 0];
    [- d_sin a; d_cos a; lit 0];
    [lit 0; lit 0; lit 1] ].
End Rotations.

(** [toupper] in the "C" locale, and [std::transform] of a string with it. *)
Definition toupper (c : ascii) : ascii :=
  let n := nat_of_ascii c in
  if bool_decide (97 ≤ n ≤ 122) then ascii_of_nat (n - 32) else c.

Fixpoint transform_toupper (s : string) : string :=
  match s with
  | EmptyString => EmptyString
  | String c s' => String (toupper c) (transform_toupper s')
  end.

(** ** Spherical geometry and the transformation engine *)

Section Engine.
Context {D : Type} `{Double D}.
Local Open Scope double_scope.

(** The six constant matrices are defined in coordinates.hh, which is not
    part of the sources: they are parameters here. *)
Variables _rotationMatrixGalacticToIcrs _rotationMatrixIcrsToGalactic
          _rotationMatrixEclipticToIcrs _rotationMatrixIcrsToEcliptic
          _rotationMatrixGalacticToEcliptic _rotationMatrixEclipticToGalactic
  : list (list D).

Definition radians (deg : D) : D := d_pi / lit 180 * deg.
Definition degrees (rad : D) : D := lit 180 / d_pi * rad.

Definition _get_rotationMatrix (name : string) : outcome (list (list D)) :=
  let NAME := transform_toupper name in
  if bool_decide (NAME = "GAL2ICRS") then Ok _rotationMatrixGalacticToIcrs
  else if bool_decide (NAME = "ICRS2GAL") then Ok _rotationMatrixIcrsToGalactic
  else if bool_decide (NAME = "ECL2ICRS") then Ok _rotationMatrixEclipticToIcrs
  else if bool_decide (NAME = "ICRS2ECL") then Ok _rotationMatrixIcrsToEcliptic
  else if bool_decide (NAME = "GAL2ECL") then Ok _rotationMatrixGalacticToEcliptic
  else if bool_decide (NAME = "ECL2GAL") then Ok _rotationMatrixEclipticToGalactic
  else Throw UnknownTransformationError.

Definition sphericalToCartesian (r phi theta : D) : list D :=
  let ctheta := d_cos theta in
  let x := r * d_cos phi * ctheta in
  let y := r * d_sin phi * ctheta in
  let z := r * d_sin theta in
  [x; y; z].

Definition cartesianToSpherical (x y z : D) : outcome (list D) :=
  let rCylSq := x * x + y * y in
  let r := d_sqrt (rCylSq + z * z) in
  if d_eqb r (lit 0) then Throw DomainError
  else Ok [r; d_atan2 y x; d_atan2 z (d_sqrt rCylSq)].

Definition apply_transformation (name : string) (phi theta : D)
    (use_degrees : bool) : outcome (list D) :=
  let r := lit 1 in
  let xyz :=
    if use_degrees then sphericalToCartesian r (radians phi) (radians theta)
    else sphericalToCartesian r phi theta in
  mat ← _get_rotationMatrix name;
  xyzrot ← dot_mv mat xyz;
  x' ← at_index xyzrot 0; y' ← at_index xyzrot 1; z' ← at_index xyzrot 2;
  rab ← cartesianToSpherical x' y' z';
  rab1 ← at_index rab 1; rab2 ← at_index rab 2;
  if use_degrees then Ok [degrees rab1; degrees rab2]
  else Ok [rab1; rab2].
End Engine.

(** ** The exact reals, and a small [stod] *)

(** [atan2] on the exact reals: the angle of the point [(x, y)]. *)
Definition atan2 (y x : R) : R :=
  if Rlt_dec 0 x then atan (y / x)
  else if Rlt_dec x 0 then
    (if Rle_dec 0 y then atan (y / x) + PI else atan (y / x) - PI)
  else if Rlt_dec 0 y then PI / 2
  else if Rlt_dec y 0 then - (PI / 2)
  else 0.

(** The exact reals as [double]: no rounding, no overflow, no signed zero.
    They serve to run the definitions on examples. *)
#[global] Instance R_double : Double R := {|
  lit := IZR;
  d_pi := PI;
  d_add := Rplus;
  d_mul := Rmult;
  d_div := Rdiv;
  d_neg := Ropp;
  d_eqb := λ x y, if Req_dec_T x y then true else false;
  d_sqrt := sqrt;
  d_cos := cos;
  d_sin := sin;
  d_atan2 := atan2;
|}.

(** A [stod] for tokens that are unsigned decimal integers, enough to run
    the parser on examples; any other token is refused. *)
Definition digit_value (c : ascii) : option Z :=
  let n := nat_of_ascii c in
  if bool_decide (48 ≤ n ≤ 57) then Some (Z.of_nat (n - 48)) else None.

Fixpoint digits_value (s : string) (acc : Z) : option Z :=
  match s with
  | EmptyString => Some acc
  | String c s' =>
      match digit_value c with
      | Some d => digits_value s' (10 * acc + d)
      | None => None
      end
  end.

Definition stod_digits {D} `{Double D} (s : string) : outcome D :=
  match s with
  | EmptyString => Throw (invalid_argument "stod")
  | _ =>
      match digits_value s 0 with
      | Some n => Ok (lit n)
      | None => Throw (invalid_argument "stod")
      end
  end.

(** ** Specification-side definitions *)

(** The fields of [s] between delimiters: one more than there are
    delimiters, empty ones included. *)
Fixpoint fields_from (s : string) (delim : ascii) (item : string)
  : list string :=
  match s with
  | EmptyString => [item]
  | String c s' =>
      if Ascii.eqb c delim then item :: fields_from s' delim ""
      else fields_from s' delim (item +:+ String c "")
  end.
Definition fields (s : string) (delim : ascii) : list string :=
  fields_from s delim "".

Definition nonempty (t : string) : Prop := t ≠ "".
#[global] Instance nonempty_dec t : Decision (nonempty t).
Proof. unfold nonempty. apply _. Defined.

(** A well-formed dense matrix with [m] rows and [n] columns. *)
Definition shape {A} (M : list (list A)) (m n : nat) : Prop :=
  length M = m ∧ Forall (λ row, length row = n) M.

Section MatrixSpec.
Context {D : Type} `{Double D}.
Local Open Scope double_scope.

(** The entry in row [i] and column [j] of a matrix that has it. *)
Definition entry (M : list (list D)) (i j : nat) : D :=
  default (lit 0) (M !! i ≫= (.!! j)).

(** The sum of [f 0], ..., [f (n-1)], added in this order to [0.0]. *)
Fixpoint sum_upto (n : nat) (f : nat → D) : D :=
  match n with
  | 0 => lit 0
  | S n' => sum_upto n' f + f n'
  end.

(** The [m] x [n] matrix with the entries [f i j]. *)
Definition mat_of (m n : nat) (f : nat → nat → D) : list (list D) :=
  (λ i, f i <$> seq 0 n) <$> seq 0 m.

(** The standard product of an [mA] x [nA] and an [nA] x [nB] matrix:
    C[i][j] is the sum over k of A[i][k] * B[k][j]. *)
Definition matmul_spec (A B : list (list D)) (mA nA nB : nat)
  : list (list D) :=
  mat_of mA nB (λ i j, sum_upto nA (λ k, entry A i k * entry B k j)).
End MatrixSpec.

(** ** IEEE binary64 *)

(** A literal with an integer value, as a binary64 number (exact for the
    literals of the file). *)
Definition float_of_Z (z : Z) : PrimFloat.float :=
  match z with
  | Z0 => PrimFloat.zero
  | Zpos _ => PrimFloat.of_uint63 (Uint63.of_Z z)
  | Zneg p => PrimFloat.opp (PrimFloat.of_uint63 (Uint63.of_Z (Zpos p)))
  end.

(** [double] as binary64: the arithmetic, the comparison and the square
    root are those of IEEE 754; the macro PI and the functions of libm are
    parameters. *)
Definition binary64 (pi : PrimFloat.float)
    (libm_cos libm_sin : PrimFloat.float → PrimFloat.float)
    (libm_atan2 : PrimFloat.float → PrimFloat.float → PrimFloat.float)
  : Double PrimFloat.float := {|
  lit := float_of_Z;
  d_pi := pi;
  d_add := PrimFloat.add;
  d_mul := PrimFloat.mul;
  d_div := PrimFloat.div;
  d_neg := PrimFloat.opp;
  d_eqb := PrimFloat.eqb;
  d_sqrt := PrimFloat.sqrt;
  d_cos := libm_cos;
  d_sin := libm_sin;
  d_atan2 := libm_atan2;
|}.


(** ** Names without regard to case, and the transformation of a matrix *)

(** Two characters that are equal, or the upper and the lower case of one
    letter A to Z. *)
Definition same_char_nocase (c1 c2 : ascii) : bool :=
  let n1 := nat_of_ascii c1 in
  let n2 := nat_of_ascii c2 in
  bool_decide (n1 = n2 ∨ (65 ≤ n1 ≤ 90 ∧ n2 = n1 + 32)
               ∨ (65 ≤ n2 ≤ 90 ∧ n1 = n2 + 32)).

(** Two strings that are equal character by character, without regard to
    case. *)
Fixpoint same_nocase (s t : string) : bool :=
  match s, t with
  | EmptyString, EmptyString => true
  | String c s', String d t' => same_char_nocase c d && same_nocase s' t'
  | _, _ => false
  end.

Section TransformSpec.
Context {D : Type} `{Double D}.

(** The transformation that the matrix [M] defines on a pair of angles:
    to radians when [use_degrees] is set, to the Cartesian unit vector,
    times [M], back to spherical coordinates without the radius, and back
    to degrees when [use_degrees] is set. *)
Definition transform_with_matrix (M : list (list D)) (phi theta : D)
    (use_degrees : bool) : outcome (list D) :=
  let v :=
    if use_degrees
    then sphericalToCartesian (lit 1) (radians phi) (radians theta)
    else sphericalToCartesian (lit 1) phi theta in
  w ← dot_mv M v;
  x ← at_index w 0; y ← at_index w 1; z ← at_index w 2;
  rab ← cartesianToSpherical x y z;
  a ← at_index rab 1; b ← at_index rab 2;
  if use_degrees then Ok [degrees a; degrees b] else Ok [a; b].
End TransformSpec.

(** ** More specification-side definitions *)

(** Whether the character [c] occurs in [s]. *)
Fixpoint has_char (c : ascii) (s : string) : bool :=
  match s with
  | EmptyString => false
  | String c' s' => Ascii.eqb c' c || has_char c s'
  end.

(** Whether [s] ends with the character [c]. *)
Fixpoint ends_with (c : ascii) (s : string) : bool :=
  match s with
  | EmptyString => false
  | String c' EmptyString => Ascii.eqb c' c
  | String _ s' => ends_with c s'
  end.

(** The tokens [ts] written one after the other with [delim] in between. *)
Fixpoint join (delim : ascii) (ts : list string) : string :=
  match ts with
  | [] => ""
  | [t] => t
  | t :: ts' => t +:+ String delim (join delim ts')
  end.

Section VectorSpec.
Context {D : Type} `{Double D}.

(** The entry [i] of a vector that has it. *)
Definition ventry (x : list D) (i : nat) : D := default (lit 0) (x !! i).

(** The vector with the [n] entries [f i]. *)
Definition vec_of (n : nat) (f : nat → D) : list D := f <$> seq 0 n.

(** The 3x3 identity matrix. *)
Definition identity3 : list (list D) :=
  [ [lit 1; lit 0; lit 0]; [lit 0; lit 1; lit 0]; [lit 0; lit 0; lit 1] ].
End VectorSpec.

(** * Properties *)

(** ** The outcome monad and the loops *)

Lemma at_index_Ok {A} (v : list A) i a : v !! i = Some a → at_index v i = Ok a.
Proof. unfold at_index. by intros ->. Qed.

Lemma at_index_ge {A} (v : list A) i : length v ≤ i → at_index v i = OutOfBounds.
Proof. intros Hi. unfold at_index. by rewrite lookup_ge_None_2. Qed.

Lemma set_index_Ok {A} (v : list A) i a :
  i < length v → set_index v i a = Ok (<[i:=a]> v).
Proof. intros Hi. unfold set_index. by rewrite decide_True. Qed.

Lemma set_index_ge {A} (v : list A) i a :
  length v ≤ i → set_index v i a = OutOfBounds.
Proof. intros Hi. unfold set_index. rewrite decide_False; [done | lia]. Qed.

(** ** String splitting *)

Lemma string_length_pos (t : string) : 0 < String.length t ↔ nonempty t.
Proof. unfold nonempty. destruct t; simpl; split; (done || lia). Qed.

Lemma append_char_nonempty (item : string) c : nonempty (item +:+ String c "").
Proof. unfold nonempty. by destruct item. Qed.

(** With [skip_empty] set, the loop yields the non-empty fields, in order. *)
Lemma split_loop_fields s delim item :
  split_loop s delim true item = filter nonempty (fields_from s delim item).
Proof.
  revert item. induction s as [|c s IH]; intros item; simpl.
  - destruct item; [done|].
    rewrite bool_decide_true by (simpl; lia).
    rewrite filter_cons_True; [done|]. by unfold nonempty.
  - destruct (Ascii.eqb c delim); [|apply IH].
    rewrite IH. destruct item; simpl; [done|].
    rewrite filter_cons_True; [done|]. by unfold nonempty.
Qed.

Lemma split_string_fields s delim :
  split_string s delim true = filter nonempty (fields s delim).
Proof. apply split_loop_fields. Qed.

Lemma split_string_nonempty s delim :
  Forall nonempty (split_string s delim true).
Proof.
  rewrite split_string_fields. apply Forall_forall. intros t Ht.
  by apply list_elem_of_filter in Ht as [? _].
Qed.

(** ** Angle parsing *)

Section ParsingFacts.
Context {D : Type} `{Double D}.
Variable stod : string → outcome D.
Local Open Scope double_scope.

(** What [parseDmsToDegrees] does with the token list it gets. *)
Lemma parseDmsToDegrees_three dms delimiter t0 t1 t2 :
  split_string dms delimiter true = [t0; t1; t2] →
  parseDmsToDegrees stod dms delimiter =
    (d ← stod t0; m ← stod t1; s ← stod t2;
     Ok (d + (m + s / lit 60) / lit 60)).
Proof. intros Hs. unfold parseDmsToDegrees. rewrite Hs. reflexivity. Qed.

Lemma parseDmsToDegrees_too_many dms delimiter :
  3 < length (split_string dms delimiter true) →
  parseDmsToDegrees stod dms delimiter = Throw FormatError.
Proof. intros Hs. unfold parseDmsToDegrees. by rewrite decide_True. Qed.

(** C2: an input that splits into fewer than three tokens, all of them
    numeric, makes [parseDmsToDegrees] index its token vector out of
    range instead of combining the tokens supplied: the size test only
    refuses more than three tokens, and elements[0], elements[1] and
    elements[2] are read whatever the size is. (With exactly three tokens
    the result is d + (m + s/60)/60: [parseDmsToDegrees_three].) *)
Theorem parseDmsToDegrees_fewer_than_three dms delimiter :
  length (split_string dms delimiter true) < 3 →
  (∀ t, t ∈ split_string dms delimiter true → ∃ v, stod t = Ok v) →
  parseDmsToDegrees stod dms delimiter = OutOfBounds.
Proof.
  intros Hlen Hnum. unfold parseDmsToDegrees.
  destruct (split_string dms delimiter true) as [|t0 [|t1 [|t2 els]]];
    simpl in *; try lia.
  - reflexivity.
  - destruct (Hnum t0) as [d ->]; [repeat constructor|]. reflexivity.
  - destruct (Hnum t0) as [d ->]; [repeat constructor|].
    destruct (Hnum t1) as [m ->]; [repeat constructor|]. reflexivity.
Qed.

(** C9: the splitter is called with its default [skip_empty = true], so
    for every input and every delimiter the tokens that
    [parseDmsToDegrees] and [parseHmsToDegrees] count and combine are the
    non-empty fields of the input: empty fields from repeated, leading or
    trailing delimiters are dropped before the count. Two inputs with the
    same non-empty fields are parsed alike, and an input with any number
    of empty fields and three non-empty ones is parsed from these three
    and not refused; "10::30:00" (four fields) is parsed from "10", "30",
    "00". *)
Theorem parseDmsToDegrees_drops_empty_tokens :
  (∀ s delim, split_string s delim true = filter nonempty (fields s delim))
  ∧ (∀ dms delimiter t0 t1 t2,
       filter nonempty (fields dms delimiter) = [t0; t1; t2] →
       parseDmsToDegrees stod dms delimiter =
         (d ← stod t0; m ← stod t1; s ← stod t2;
          Ok (d + (m + s / lit 60) / lit 60))
       ∧ parseHmsToDegrees stod dms delimiter =
         (d ← stod t0; m ← stod t1; s ← stod t2;
          Ok ((d + (m + s / lit 60) / lit 60) * lit 15)))
  ∧ (∀ dms delimiter dms' delimiter',
       filter nonempty (fields dms delimiter)
         = filter nonempty (fields dms' delimiter') →
       parseDmsToDegrees stod dms delimiter
         = parseDmsToDegrees stod dms' delimiter'
       ∧ parseHmsToDegrees stod dms delimiter
         = parseHmsToDegrees stod dms' delimiter')
  ∧ fields "10::30:00" ":" = ["10"; ""; "30"; "00"]
  ∧ fields ":10:30:00:" ":" = [""; "10"; "30"; "00"; ""]
  ∧ parseDmsToDegrees stod "10::30:00" ":" =
      (d ← stod "10"; m ← stod "30"; s ← stod "00";
       Ok (d + (m + s / lit 60) / lit 60))
  ∧ parseHmsToDegrees stod "10::30:00" ":" =
      (d ← stod "10"; m ← stod "30"; s ← stod "00";
       Ok ((d + (m + s / lit 60) / lit 60) * lit 15)).
Proof.
  assert (∀ dms delimiter t0 t1 t2,
    filter nonempty (fields dms delimiter) = [t0; t1; t2] →
    parseDmsToDegrees stod dms delimiter =
      (d ← stod t0; m ← stod t1; s ← stod t2;
       Ok (d + (m + s / lit 60) / lit 60))
    ∧ parseHmsToDegrees stod dms delimiter =
      (d ← stod t0; m ← stod t1; s ← stod t2;
       Ok ((d + (m + s / lit 60) / lit 60) * lit 15))) as Hthree.
  { intros dms delimiter t0 t1 t2 Hf. rewrite <- split_string_fields in Hf.
    unfold parseHmsToDegrees.
    rewrite (parseDmsToDegrees_three dms delimiter t0 t1 t2 Hf).
    split; [done|].
    destruct (stod t0) as [d| |]; simpl; [|done..].
    destruct (stod t1) as [m| |]; simpl; [|done..].
    by destruct (stod t2) as [s| |]. }
  split; [apply split_string_fields|].
  split; [exact Hthree|].
  split.
  { intros dms delimiter dms' delimiter' Hf.
    rewrite <- !split_string_fields in Hf.
    unfold parseHmsToDegrees, parseDmsToDegrees. by rewrite Hf. }
  split; [reflexivity|]. split; [reflexivity|].
  by apply Hthree.
Qed.
End ParsingFacts.

(** The parser run on the exact reals: "10:30:00" is 10.5 degrees, and as
    an hour angle 01:00:00 is 15 degrees. *)
Lemma parseDmsToDegrees_example :
  parseDmsToDegrees (D:=R) stod_digits "10:30:00" ":" = Ok 10.5%R
  ∧ parseHmsToDegrees (D:=R) stod_digits "01:00:00" ":" = Ok 15%R
  ∧ parseDmsToDegrees (D:=R) stod_digits "1:2:3:4" ":" = Throw FormatError.
Proof.
  repeat split.
  - vm_compute. f_equal. lra.
  - vm_compute. f_equal. lra.
Qed.

Lemma parseDmsToDegrees_fewer_than_three_witness :
  parseDmsToDegrees (D:=R) stod_digits "10:30" ":" = OutOfBounds.
Proof.
  apply (parseDmsToDegrees_fewer_than_three (D:=R) stod_digits "10:30" ":").
  - vm_compute. lia.
  - intros t Ht. vm_compute in Ht.
    apply list_elem_of_In in Ht. simpl in Ht.
    destruct Ht as [<-|[<-|[]]]; eexists; reflexivity.
Defined.

(** ** Dense linear algebra *)

Section LinearAlgebraFacts.
Context {D : Type} `{Double D}.
Local Open Scope double_scope.

(** C10: [transpose] and the three matrix overloads of [dot] take the
    column count from the first row of each matrix argument before any
    dimension test, so a matrix without rows makes them index out of range;
    no [DimensionError] is raised, whatever the other argument is. *)
Theorem matrix_operations_need_a_first_row :
  transpose (D:=D) [] = OutOfBounds
  ∧ (∀ B : list (list D), dot_mm [] B = OutOfBounds)
  ∧ (∀ A : list (list D), dot_mm A [] = OutOfBounds)
  ∧ (∀ x : list D, dot_mv [] x = OutOfBounds)
  ∧ (∀ x : list D, dot_vm x [] = OutOfBounds).
Proof.
  repeat split; try done.
  intros [|A0 A]; reflexivity.
Qed.

(** With a first row in each matrix, mismatching inner dimensions are
    refused. *)
Lemma dot_mm_mismatch (A B : list (list D)) A0 B0 :
  A !! 0 = Some A0 → B !! 0 = Some B0 → length A0 ≠ length B →
  dot_mm A B = Throw DimensionError.
Proof.
  intros HA HB Hne. unfold dot_mm.
  rewrite (at_index_Ok _ _ _ HA), (at_index_Ok _ _ _ HB). simpl.
  by rewrite decide_True.
Qed.
End LinearAlgebraFacts.

(** ** Loops *)

Section Loops.
Context {St : Type}.
Implicit Types (body : nat → St → outcome St) (P : nat → St → Prop).

(** A loop whose body keeps an invariant runs to its end. *)
Lemma for_each_seq_inv P a n body s :
  P a s →
  (∀ i s, a ≤ i < a + n → P i s → ∃ s', body i s = Ok s' ∧ P (1 + i) s') →
  ∃ s', for_each (seq a n) body s = Ok s' ∧ P (a + n) s'.
Proof.
  revert a s. induction n as [|n IH]; intros a s Hs Hbody; simpl.
  - exists s. by rewrite Nat.add_0_r.
  - destruct (Hbody a s) as (s1 & -> & Hs1); [lia|done|]. simpl.
    destruct (IH (1 + a) s1) as (s2 & Hrun & Hs2); [done| |].
    + intros i s' Hi. apply Hbody. lia.
    + exists s2. split; [done|]. by replace (a + S n) with (1 + a + n) by lia.
Qed.

Lemma for_range_inv P n body s :
  P 0 s →
  (∀ i s, i < n → P i s → ∃ s', body i s = Ok s' ∧ P (1 + i) s') →
  ∃ s', for_range n body s = Ok s' ∧ P n s'.
Proof.
  intros Hs Hbody. apply (for_each_seq_inv P 0 n); [done|].
  intros i s' Hi. apply Hbody. lia.
Qed.

(** A loop whose body fails at index [i0], after keeping an invariant up to
    there, fails the same way. *)
Lemma for_each_seq_fail P a n i0 body s (r : outcome St) :
  a ≤ i0 < a + n →
  P a s →
  (∀ i s, a ≤ i < i0 → P i s → ∃ s', body i s = Ok s' ∧ P (1 + i) s') →
  (∀ s, P i0 s → body i0 s = r) →
  (∀ s', r ≠ Ok s') →
  for_each (seq a n) body s = r.
Proof.
  revert a s. induction n as [|n IH]; intros a s Hi0 Hs Hbody Hfail Hr; [lia|].
  simpl. destruct (decide (a = i0)) as [->|Hne].
  - rewrite (Hfail s Hs). destruct r; [by destruct (Hr a)|done..].
  - destruct (Hbody a s) as (s1 & -> & Hs1); [lia|done|]. simpl.
    apply IH; [lia|done| |done..].
    intros i s' Hi. apply Hbody. lia.
Qed.

Lemma for_range_fail P n i0 body s (r : outcome St) :
  i0 < n →
  P 0 s →
  (∀ i s, i < i0 → P i s → ∃ s', body i s = Ok s' ∧ P (1 + i) s') →
  (∀ s, P i0 s → body i0 s = r) →
  (∀ s', r ≠ Ok s') →
  for_range n body s = r.
Proof.
  intros Hi0 Hs Hbody Hfail Hr.
  apply (for_each_seq_fail P 0 n i0); [lia|done| |done..].
  intros i s' Hi. apply Hbody. lia.
Qed.
End Loops.

(** ** Matrices as lists of rows *)

Section MatrixFacts.
Context {D : Type} `{Double D}.
Local Open Scope double_scope.
Implicit Types (M : list (list D)) (v : D).

Lemma shape_lookup M m n i :
  shape M m n → i < m → ∃ row, M !! i = Some row ∧ length row = n.
Proof.
  intros [Hm Hrows] Hi. destruct (lookup_lt_is_Some_2 M i) as [row Hrow]; [lia|].
  exists row. split; [done|]. by apply (Forall_lookup_1 _ _ _ _ Hrows Hrow).
Qed.

Lemma get2_entry M m n i j :
  shape M m n → i < m → j < n → get2 M i j = Ok (entry M i j).
Proof.
  intros HM Hi Hj. destruct (shape_lookup M m n i HM Hi) as (row & Hrow & Hlen).
  destruct (lookup_lt_is_Some_2 row j) as [x Hx]; [lia|].
  unfold get2, entry. rewrite (at_index_Ok _ _ _ Hrow), Hrow. simpl.
  by rewrite (at_index_Ok _ _ _ Hx), Hx.
Qed.

Lemma get2_row_oob M i j : length M ≤ i → get2 M i j = OutOfBounds.
Proof. intros Hi. unfold get2. by rewrite at_index_ge. Qed.

Lemma get2_col_oob M m n i j :
  shape M m n → i < m → n ≤ j → get2 M i j = OutOfBounds.
Proof.
  intros HM Hi Hj. destruct (shape_lookup M m n i HM Hi) as (row & Hrow & Hlen).
  unfold get2. rewrite (at_index_Ok _ _ _ Hrow). simpl.
  apply at_index_ge. lia.
Qed.

Lemma set2_entry M m n i j v :
  shape M m n → i < m → j < n →
  ∃ M', set2 M i j v = Ok M' ∧ shape M' m n ∧
    ∀ i' j', entry M' i' j' =
      if decide (i' = i ∧ j' = j) then v else entry M i' j'.
Proof.
  intros HM Hi Hj. destruct (shape_lookup M m n i HM Hi) as (row & Hrow & Hlen).
  destruct HM as [Hm Hrows].
  exists (<[i:=<[j:=v]> row]> M). split; [|split; [split|]].
  - unfold set2. rewrite (at_index_Ok _ _ _ Hrow). simpl.
    rewrite set_index_Ok by lia. simpl. apply set_index_Ok. lia.
  - by rewrite length_insert.
  - apply Forall_insert; [done|]. by rewrite length_insert.
  - intros i' j'. unfold entry. destruct (decide (i' = i)) as [->|Hi'].
    + rewrite list_lookup_insert_eq by lia. rewrite Hrow. simpl.
      destruct (decide (j' = j)) as [->|Hj'].
      * rewrite list_lookup_insert_eq by lia. by rewrite decide_True.
      * rewrite list_lookup_insert_ne by done. rewrite decide_False; [done|tauto].
    + rewrite list_lookup_insert_ne by done. rewrite decide_False; [done|tauto].
Qed.

Lemma shape_ext M M' m n :
  shape M m n → shape M' m n →
  (∀ i j, i < m → j < n → entry M i j = entry M' i j) → M = M'.
Proof.
  intros HM HM' Hentry. apply list_eq. intros i.
  destruct (decide (i < m)) as [Hi|Hi].
  - destruct (shape_lookup M m n i HM Hi) as (row & Hrow & Hlen).
    destruct (shape_lookup M' m n i HM' Hi) as (row' & Hrow' & Hlen').
    rewrite Hrow, Hrow'. f_equal. apply list_eq. intros j.
    destruct (decide (j < n)) as [Hj|Hj].
    + specialize (Hentry i j Hi Hj). unfold entry in Hentry.
      rewrite Hrow, Hrow' in Hentry. simpl in Hentry.
      destruct (lookup_lt_is_Some_2 row j) as [x Hx]; [lia|].
      destruct (lookup_lt_is_Some_2 row' j) as [x' Hx']; [lia|].
      rewrite Hx, Hx' in Hentry |- *. simpl in Hentry. by f_equal.
    + rewrite !lookup_ge_None_2 by lia. done.
  - destruct HM as [Hm _], HM' as [Hm' _].
    rewrite !lookup_ge_None_2 by lia. done.
Qed.

Lemma shape_mat_of m n (f : nat → nat → D) : shape (mat_of m n f) m n.
Proof.
  split.
  - unfold mat_of. by rewrite length_fmap, length_seq.
  - apply Forall_fmap, Forall_forall. intros i _. simpl.
    by rewrite length_fmap, length_seq.
Qed.

Lemma entry_mat_of m n (f : nat → nat → D) i j :
  i < m → j < n → entry (mat_of m n f) i j = f i j.
Proof.
  intros Hi Hj. unfold entry, mat_of.
  rewrite list_lookup_fmap, lookup_seq_lt by done. simpl.
  by rewrite list_lookup_fmap, lookup_seq_lt.
Qed.

(** [valarray2d(std::valarray<double>(a), b)] has [b] rows of [a] zeros. *)
Lemma shape_valarray2d a b : shape (valarray2d (valarray (D:=D) a) b) b a.
Proof.
  split.
  - apply length_replicate.
  - apply Forall_replicate, length_replicate.
Qed.

Lemma entry_valarray2d a b i j :
  entry (valarray2d (valarray a) b) i j = lit 0.
Proof.
  unfold entry, valarray2d, valarray.
  destruct (decide (i < b)) as [Hi|Hi].
  - rewrite lookup_replicate_2 by done. simpl.
    destruct (decide (j < a)) as [Hj|Hj].
    + by rewrite lookup_replicate_2.
    + by rewrite (proj1 (lookup_replicate_None _ _ _)) by lia.
  - by rewrite (proj1 (lookup_replicate_None _ _ _)) by lia.
Qed.
End MatrixFacts.

(** ** The matrix product *)

Section DotFacts.
Context {D : Type} `{Double D}.
Local Open Scope double_scope.
Variables (A B : list (list D)) (mA nA nB : nat).
Hypothesis HA : shape A mA nA.
Hypothesis HB : shape B nA nB.
Hypothesis HmA : 0 < mA.
Hypothesis HnA : 0 < nA.

(** The entry of the product, and the part of it summed after [k] steps. *)
Local Abbreviation term i j := (λ k, entry A i k * entry B k j).
Local Abbreviation F i j := (sum_upto nA (term i j)).

(** Past the dimension test, the three loops run on [nB] rows of [mA]
    zeros. *)
Lemma dot_mm_loops :
  dot_mm A B =
    for_range mA (λ i C,
      for_range nB (λ j C,
        for_range nA (λ k C, dot_mm_step A B i j k C) C) C)
      (valarray2d (valarray mA) nB).
Proof.
  destruct (shape_lookup A mA nA 0 HA HmA) as (A0 & HA0 & HlenA0).
  destruct (shape_lookup B nA nB 0 HB HnA) as (B0 & HB0 & HlenB0).
  unfold dot_mm. rewrite (at_index_Ok _ _ _ HA0), (at_index_Ok _ _ _ HB0).
  simpl. destruct HA as [-> _], HB as [HlenB _].
  rewrite decide_False by lia. by rewrite HlenA0, HlenB0.
Qed.

Lemma dot_mm_step_ok C r c i j k :
  shape C r c → i < mA → i < r → j < nB → j < c → k < nA →
  ∃ C', dot_mm_step A B i j k C = Ok C' ∧ shape C' r c ∧
    ∀ i' j', entry C' i' j' =
      if decide (i' = i ∧ j' = j) then entry C i j + term i j k
      else entry C i' j'.
Proof.
  intros HC Hi Hir Hj Hjc Hk. unfold dot_mm_step.
  rewrite (get2_entry C r c), (get2_entry A mA nA), (get2_entry B nA nB)
    by done. simpl.
  by apply set2_entry.
Qed.

Lemma dot_mm_row_col_ok C r c i j :
  shape C r c → i < mA → i < r → j < nB → j < c → entry C i j = lit 0 →
  ∃ C', for_range nA (λ k C, dot_mm_step A B i j k C) C = Ok C' ∧
    shape C' r c ∧
    ∀ i' j', entry C' i' j' =
      if decide (i' = i ∧ j' = j) then F i j else entry C i' j'.
Proof.
  intros HC Hi Hir Hj Hjc Hzero.
  apply (for_range_inv (λ k C', shape C' r c ∧ ∀ i' j', entry C' i' j' =
    if decide (i' = i ∧ j' = j) then sum_upto k (term i j)
    else entry C i' j')).
  - split; [done|]. intros i' j'. case_decide as Hij; [|done].
    destruct Hij as [-> ->]. done.
  - intros k C1 Hk [HC1 Hent].
    destruct (dot_mm_step_ok C1 r c i j k) as (C2 & -> & HC2 & Hent2); try done.
    exists C2. split; [done|]. split; [done|]. intros i' j'.
    rewrite Hent2, !Hent. case_decide as Hij.
    + by rewrite decide_True.
    + done.
Qed.

(** [C[i][j]] does not exist: the first step of the innermost loop reads
    it. *)
Lemma dot_mm_row_col_oob C i j :
  get2 C i j = OutOfBounds →
  for_range nA (λ k C, dot_mm_step A B i j k C) C = OutOfBounds.
Proof.
  intros Hoob.
  apply (for_range_fail (λ _ C', C' = C) nA 0); try done.
  - intros k C' Hk. lia.
  - intros C' ->. unfold dot_mm_step. by rewrite Hoob.
Qed.
(** Row [i] of the result, when [C] has that row and at least [nB]
    columns. *)
Lemma dot_mm_row_ok C r c i :
  shape C r c → i < mA → i < r → nB ≤ c →
  (∀ j, entry C i j = lit 0) →
  ∃ C', for_range nB (λ j C,
          for_range nA (λ k C, dot_mm_step A B i j k C) C) C = Ok C' ∧
    shape C' r c ∧
    ∀ i' j', entry C' i' j' =
      if decide (i' = i ∧ j' < nB) then F i j' else entry C i' j'.
Proof.
  intros HC Hi Hir Hc Hzero.
  edestruct (for_range_inv (λ j C', shape C' r c ∧ ∀ i' j', entry C' i' j' =
    if decide (i' = i ∧ j' < j) then F i j' else entry C i' j') nB)
    as (C' & Hrun & HC' & Hent'); [| |exists C'; eauto].
  - split; [done|]. intros i' j'. rewrite decide_False; [done|lia].
  - intros j C1 Hj [HC1 Hent].
    destruct (dot_mm_row_col_ok C1 r c i j) as (C2 & -> & HC2 & Hent2);
      [done|done|done|done|lia| |].
    { rewrite Hent, decide_False by lia. apply Hzero. }
    exists C2. split; [done|]. split; [done|]. intros i' j'.
    rewrite Hent2, Hent.
    destruct (decide (i' = i ∧ j' = j)) as [[-> ->]|Hnow].
    + rewrite decide_True; [done|lia].
    + destruct (decide (i' = i ∧ j' < j)) as [Hdone|Hdone].
      * rewrite decide_True; [done|lia].
      * rewrite decide_False; [done|lia].
Qed.

(** [C] has fewer than [nB] columns: the row is filled up to the last
    column that exists, and the next one is read out of range. *)
Lemma dot_mm_row_oob_col C r c i :
  shape C r c → i < mA → i < r → c < nB →
  (∀ j, entry C i j = lit 0) →
  for_range nB (λ j C,
    for_range nA (λ k C, dot_mm_step A B i j k C) C) C = OutOfBounds.
Proof.
  intros HC Hi Hir Hc Hzero.
  apply (for_range_fail (λ j C', shape C' r c ∧ ∀ i' j', entry C' i' j' =
    if decide (i' = i ∧ j' < j) then F i j' else entry C i' j') nB c);
    [done| | | |done].
  - split; [done|]. intros i' j'. rewrite decide_False; [done|lia].
  - intros j C1 Hj [HC1 Hent].
    destruct (dot_mm_row_col_ok C1 r c i j) as (C2 & -> & HC2 & Hent2);
      [done|done|done|lia|done| |].
    { rewrite Hent, decide_False by lia. apply Hzero. }
    exists C2. split; [done|]. split; [done|]. intros i' j'.
    rewrite Hent2, Hent.
    destruct (decide (i' = i ∧ j' = j)) as [[-> ->]|Hnow].
    + rewrite decide_True; [done|lia].
    + destruct (decide (i' = i ∧ j' < j)) as [Hdone|Hdone].
      * rewrite decide_True; [done|lia].
      * rewrite decide_False; [done|lia].
  - intros C1 [HC1 _]. apply dot_mm_row_col_oob.
    by apply (get2_col_oob C1 r c).
Qed.

(** [C] has no row [i]. *)
Lemma dot_mm_row_oob_row C i :
  0 < nB → length C ≤ i →
  for_range nB (λ j C,
    for_range nA (λ k C, dot_mm_step A B i j k C) C) C = OutOfBounds.
Proof.
  intros HnB Hi.
  apply (for_range_fail (λ _ C', C' = C) nB 0); [done|done| | |done].
  - intros j C' Hj. lia.
  - intros C' ->. apply dot_mm_row_col_oob. by apply get2_row_oob.
Qed.
(** The rows below [i] hold the product, the others are still zero. *)
Local Abbreviation rows_done i C' :=
  (shape C' nB mA ∧ ∀ i' j', entry C' i' j' =
     if decide (i' < i ∧ j' < nB) then F i' j' else lit 0).

Lemma dot_mm_rows_start : rows_done 0 (valarray2d (valarray mA) nB).
Proof.
  split; [apply shape_valarray2d|]. intros i' j'.
  rewrite entry_valarray2d, decide_False; [done|lia].
Qed.

Lemma dot_mm_rows_step i C :
  i < mA → i < nB → nB ≤ mA → rows_done i C →
  ∃ C', for_range nB (λ j C,
          for_range nA (λ k C, dot_mm_step A B i j k C) C) C = Ok C' ∧
    rows_done (1 + i) C'.
Proof.
  intros Hi Hir Hc [HC Hent].
  destruct (dot_mm_row_ok C nB mA i) as (C' & -> & HC' & Hent'); try done.
  { intros j. rewrite Hent, decide_False; [done|lia]. }
  exists C'. split; [done|]. split; [done|]. intros i' j'.
  rewrite Hent', Hent.
  destruct (decide (i' = i ∧ j' < nB)) as [[-> ?]|?].
  - rewrite decide_True; [done|lia].
  - destruct (decide (i' < i ∧ j' < nB)).
    + rewrite decide_True; [done|lia].
    + rewrite decide_False; [done|lia].
Qed.

(** When the result is square, [dot] returns the standard product. *)
Lemma dot_mm_square :
  nB = mA → dot_mm A B = Ok (matmul_spec A B mA nA nB).
Proof.
  intros Hsq. rewrite dot_mm_loops.
  edestruct (for_range_inv (λ i C', rows_done i C') mA)
    as (C' & -> & HC' & Hent'); [apply dot_mm_rows_start| |].
  - intros i C Hi. apply dot_mm_rows_step; lia.
  - f_equal. apply (shape_ext _ _ mA nB).
    + revert HC'. by rewrite Hsq.
    + apply shape_mat_of.
    + intros i j Hi Hj. unfold matmul_spec.
      rewrite Hent', entry_mat_of by done. rewrite decide_True; [done|lia].
Qed.

(** C5: for well-formed matrices [A] ([mA] x [nA]) and [B] ([nA] x [nB])
    with no dimension zero and [mA ≠ nB], [dot(A, B)] does not return the
    product: its result matrix is allocated as [nB] rows of [mA] entries
    and indexed as [mA] rows of [nB] entries, so the loops index it out of
    range. ([dot_mm_mismatch] and [dot_mm_square] are the two cases in
    which the code does what is claimed: the dimension error, and the
    standard product when the result is square.) *)
Theorem dot_mm_rectangular_out_of_bounds :
  0 < nB → mA ≠ nB → dot_mm A B = OutOfBounds.
Proof.
  intros HnB Hne. rewrite dot_mm_loops.
  destruct (decide (mA < nB)) as [Hlt|Hge].
  - apply (for_range_fail (λ _ C', C' = valarray2d (valarray mA) nB) mA 0);
      [done|done| | |done].
    + intros i C' Hi. lia.
    + intros C' ->. apply (dot_mm_row_oob_col _ nB mA); try done.
      * apply shape_valarray2d.
      * intros j. apply entry_valarray2d.
  - apply (for_range_fail (λ i C', rows_done i C') mA nB);
      [lia|apply dot_mm_rows_start| | |done].
    + intros i C Hi. apply dot_mm_rows_step; lia.
    + intros C [[HlenC _] _]. apply dot_mm_row_oob_row; [done|lia].
Qed.
End DotFacts.

(** A square result, run on the exact reals. *)
Lemma dot_mm_square_example :
  dot_mm (D:=R) [[1%R; 2%R]; [3%R; 4%R]] [[5%R; 6%R]; [7%R; 8%R]] =
    Ok [[19%R; 22%R]; [43%R; 50%R]].
Proof.
  rewrite (dot_mm_square (D:=R) _ _ 2 2 2);
    [|split; [reflexivity|repeat constructor]..|lia|lia|reflexivity].
  unfold matmul_spec, mat_of, entry. simpl.
  repeat (f_equal; try lra).
Qed.

Lemma dot_mm_rectangular_out_of_bounds_witness :
  dot_mm (D:=R) [[1%R; 2%R]] [[1%R; 0%R]; [0%R; 1%R]] = OutOfBounds.
Proof.
  apply (dot_mm_rectangular_out_of_bounds (D:=R) _ _ 1 2 2).
  - split; [reflexivity|]. repeat constructor.
  - split; [reflexivity|]. repeat constructor.
  - lia.
  - lia.
  - lia.
  - lia.
Defined.

(** ** Elementary rotations *)

Section RotationFacts.
Context {D : Type} `{Double D}.
Local Open Scope double_scope.

(** C3: for an axis outside x, X, y, Y, z, Z no error is raised:
    [elementaryRotationMatrix] returns the 3x3 matrix of zeros it started
    from. *)
Theorem elementaryRotationMatrix_unknown_axis (axis : string) (angle : D) :
  axis ∉ ["x"; "X"; "y"; "Y"; "z"; "Z"] →
  elementaryRotationMatrix axis angle =
    Ok [ [lit 0; lit 0; lit 0]; [lit 0; lit 0; lit 0]; [lit 0; lit 0; lit 0] ].
Proof.
  intros Haxis. unfold elementaryRotationMatrix.
  rewrite !bool_decide_false; [done|..];
    intros [->| ->]; apply Haxis; repeat constructor.
Qed.

(** C4: about x and about z the matrix built is the conventional one. About
    y it is not: entry [0][1] is assigned 1, so the second column is
    (1, 1, 0) and not that of the identity. *)
Theorem elementaryRotationMatrix_layout (angle : D) :
  (∀ axis, axis = "x" ∨ axis = "X" →
     elementaryRotationMatrix axis angle = Ok (rotation_x_spec angle))
  ∧ (∀ axis, axis = "z" ∨ axis = "Z" →
     elementaryRotationMatrix axis angle = Ok (rotation_z_spec angle))
  ∧ (∀ axis, axis = "y" ∨ axis = "Y" →
     elementaryRotationMatrix axis angle =
       Ok [ [d_cos angle; lit 1; - d_sin angle];
            [lit 0; lit 1; lit 0];
            [d_sin angle; lit 0; d_cos angle] ]
     ∧ ((lit 1 : D) ≠ lit 0 →
        elementaryRotationMatrix axis angle ≠ Ok (rotation_y_spec angle))).
Proof.
  split; [|split].
  - by intros axis [->| ->].
  - by intros axis [->| ->].
  - intros axis Haxis.
    assert (elementaryRotationMatrix axis angle =
       Ok [ [d_cos angle; lit 1; - d_sin angle];
            [lit 0; lit 1; lit 0];
            [d_sin angle; lit 0; d_cos angle] ]) as ->
      by (by destruct Haxis as [->| ->]).
    split; [done|]. intros Hne Heq. apply Hne.
    unfold rotation_y_spec in Heq. congruence.
Qed.
End RotationFacts.

Lemma elementaryRotationMatrix_unknown_axis_witness :
  elementaryRotationMatrix (D:=R) "w" 0%R =
    Ok [ [0%R; 0%R; 0%R]; [0%R; 0%R; 0%R]; [0%R; 0%R; 0%R] ].
Proof.
  refine (elementaryRotationMatrix_unknown_axis (D:=R) "w" 0%R _).
  intros Hin. apply list_elem_of_In in Hin. simpl in Hin.
  repeat (destruct Hin as [Hin|Hin]; [discriminate Hin|]). destruct Hin.
Defined.

Lemma elementaryRotationMatrix_layout_witness :
  elementaryRotationMatrix (D:=R) "x" 0%R = Ok (rotation_x_spec 0%R)
  ∧ elementaryRotationMatrix (D:=R) "Z" 0%R = Ok (rotation_z_spec 0%R)
  ∧ elementaryRotationMatrix (D:=R) "y" 0%R ≠ Ok (rotation_y_spec 0%R).
Proof.
  destruct (elementaryRotationMatrix_layout (D:=R) 0%R) as (Hx & Hz & Hy).
  split; [|split].
  - apply Hx. by left.
  - apply Hz. by right.
  - apply (Hy "y"); [by left|]. simpl. lra.
Defined.

Lemma parseDmsToDegrees_drops_empty_tokens_witness :
  parseDmsToDegrees (D:=R) stod_digits ";10;;30;00;" ";" =
    Ok (10 + (30 + 0 / 60) / 60)%R
  ∧ parseHmsToDegrees (D:=R) stod_digits ";10;;30;00;" ";" =
    Ok ((10 + (30 + 0 / 60) / 60) * 15)%R
  ∧ parseDmsToDegrees (D:=R) stod_digits ";10;;30;00;" ";" =
    parseDmsToDegrees (D:=R) stod_digits "10:30:00" ":".
Proof.
  destruct (parseDmsToDegrees_drops_empty_tokens (D:=R) stod_digits)
    as (_ & Hthree & Hsame & _).
  destruct (Hthree ";10;;30;00;" ";"%char "10" "30" "00" eq_refl)
    as [Hdms Hhms].
  split; [exact Hdms|]. split; [exact Hhms|].
  by apply Hsame.
Defined.

(** ** Resolving a transformation name *)

Lemma nat_of_toupper c :
  nat_of_ascii (toupper c) =
    if bool_decide (97 ≤ nat_of_ascii c ≤ 122) then nat_of_ascii c - 32
    else nat_of_ascii c.
Proof.
  unfold toupper. case_bool_decide; [|done].
  apply nat_ascii_embedding. lia.
Qed.

Lemma same_char_nocase_toupper c1 c2 :
  same_char_nocase c1 c2 = true ↔ toupper c1 = toupper c2.
Proof.
  pose proof (nat_ascii_bounded c1) as Hb1.
  pose proof (nat_ascii_bounded c2) as Hb2.
  assert (toupper c1 = toupper c2
          ↔ nat_of_ascii (toupper c1) = nat_of_ascii (toupper c2)) as ->.
  { split; [by intros ->|]. intros Heq.
    rewrite <- (ascii_nat_embedding (toupper c1)), Heq.
    apply ascii_nat_embedding. }
  rewrite !nat_of_toupper. unfold same_char_nocase.
  rewrite bool_decide_eq_true.
  repeat case_bool_decide; lia.
Qed.

Lemma same_char_nocase_false c1 c2 :
  same_char_nocase c1 c2 = false ↔ toupper c1 ≠ toupper c2.
Proof.
  rewrite <- same_char_nocase_toupper. by destruct (same_char_nocase c1 c2).
Qed.

(** The test the code makes, upper case against upper case, is equality
    without regard to case. *)
Lemma same_nocase_toupper s t :
  same_nocase s t = true ↔ transform_toupper s = transform_toupper t.
Proof.
  revert t. induction s as [|c s IH]; intros [|d t]; simpl; try done.
  rewrite andb_true_iff, same_char_nocase_toupper, IH.
  split; [by intros [-> ->]|]. by intros [= -> ->].
Qed.

Section EngineFacts.
Context {D : Type} `{Double D}.
Local Open Scope double_scope.
Variables GalacticToIcrs IcrsToGalactic EclipticToIcrs IcrsToEcliptic
          GalacticToEcliptic EclipticToGalactic : list (list D).

Local Abbreviation get_rotationMatrix :=
  (_get_rotationMatrix GalacticToIcrs IcrsToGalactic EclipticToIcrs
     IcrsToEcliptic GalacticToEcliptic EclipticToGalactic).
Local Abbreviation apply_transformation' :=
  (apply_transformation GalacticToIcrs IcrsToGalactic EclipticToIcrs
     IcrsToEcliptic GalacticToEcliptic EclipticToGalactic).

Lemma toupper_idemp c : toupper (toupper c) = toupper c.
Proof. by destruct c as [[] [] [] [] [] [] [] []]; vm_compute. Qed.

Lemma transform_toupper_idemp s :
  transform_toupper (transform_toupper s) = transform_toupper s.
Proof.
  induction s as [|c s IH]; simpl; [done|]. by rewrite toupper_idemp, IH.
Qed.

(** Once the name is resolved to [M], the rest of [apply_transformation]
    is the transformation of [M]. *)
Lemma apply_transformation_resolved name M phi theta use_degrees :
  get_rotationMatrix name = Ok M →
  apply_transformation' name phi theta use_degrees =
    transform_with_matrix M phi theta use_degrees.
Proof.
  intros Hget. unfold apply_transformation, transform_with_matrix.
  by rewrite Hget.
Qed.

Lemma get_rotationMatrix_token name token M :
  same_nocase name token = true →
  transform_toupper token = token →
  (∀ name', transform_toupper name' = token → get_rotationMatrix name' = Ok M) →
  ∀ phi theta use_degrees,
    get_rotationMatrix name = Ok M
    ∧ apply_transformation' name phi theta use_degrees =
        transform_with_matrix M phi theta use_degrees.
Proof.
  intros Hsame Htoken Hget phi theta use_degrees.
  apply same_nocase_toupper in Hsame. rewrite Htoken in Hsame.
  split; [by apply Hget|]. by apply apply_transformation_resolved, Hget.
Qed.

(** C8: a name that equals one of the six tokens without regard to case
    selects the constant matrix of that token, and [apply_transformation]
    then returns the transformation of this matrix; a name that equals
    none of the six tokens without regard to case makes
    [_get_rotationMatrix] and [apply_transformation] raise the
    unknown-transformation error, and no matrix is applied. *)
Theorem apply_transformation_resolves_name (name : string) (phi theta : D)
    (use_degrees : bool) :
  (same_nocase name "GAL2ICRS" = true →
     get_rotationMatrix name = Ok GalacticToIcrs
     ∧ apply_transformation' name phi theta use_degrees =
         transform_with_matrix GalacticToIcrs phi theta use_degrees)
  ∧ (same_nocase name "ICRS2GAL" = true →
     get_rotationMatrix name = Ok IcrsToGalactic
     ∧ apply_transformation' name phi theta use_degrees =
         transform_with_matrix IcrsToGalactic phi theta use_degrees)
  ∧ (same_nocase name "ECL2ICRS" = true →
     get_rotationMatrix name = Ok EclipticToIcrs
     ∧ apply_transformation' name phi theta use_degrees =
         transform_with_matrix EclipticToIcrs phi theta use_degrees)
  ∧ (same_nocase name "ICRS2ECL" = true →
     get_rotationMatrix name = Ok IcrsToEcliptic
     ∧ apply_transformation' name phi theta use_degrees =
         transform_with_matrix IcrsToEcliptic phi theta use_degrees)
  ∧ (same_nocase name "GAL2ECL" = true →
     get_rotationMatrix name = Ok GalacticToEcliptic
     ∧ apply_transformation' name phi theta use_degrees =
         transform_with_matrix GalacticToEcliptic phi theta use_degrees)
  ∧ (same_nocase name "ECL2GAL" = true →
     get_rotationMatrix name = Ok EclipticToGalactic
     ∧ apply_transformation' name phi theta use_degrees =
         transform_with_matrix EclipticToGalactic phi theta use_degrees)
  ∧ (Forall (λ token, same_nocase name token = false)
       ["GAL2ICRS"; "ICRS2GAL"; "ECL2ICRS"; "ICRS2ECL"; "GAL2ECL"; "ECL2GAL"] →
     get_rotationMatrix name = Throw UnknownTransformationError
     ∧ apply_transformation' name phi theta use_degrees =
         Throw UnknownTransformationError).
Proof.
  repeat apply conj.
  1-6: intros Hsame;
    apply (get_rotationMatrix_token name _ _ Hsame eq_refl);
    intros name' Hname'; unfold _get_rotationMatrix; by rewrite Hname'.
  intros Hnone.
  assert (∀ token,
    token ∈ ["GAL2ICRS"; "ICRS2GAL"; "ECL2ICRS"; "ICRS2ECL"; "GAL2ECL";
             "ECL2GAL"] →
    transform_toupper name ≠ token) as Hno.
  { intros token Hin Heq. rewrite Forall_forall in Hnone.
    specialize (Hnone token Hin).
    assert (same_nocase name token = true) as Hsame.
    { apply same_nocase_toupper. by rewrite <- Heq, transform_toupper_idemp. }
    congruence. }
  assert (get_rotationMatrix name = Throw UnknownTransformationError) as Hget.
  { unfold _get_rotationMatrix.
    rewrite !bool_decide_false; [done|..]; apply Hno; repeat constructor. }
  split; [done|]. unfold apply_transformation. by rewrite Hget.
Qed.

End EngineFacts.

Lemma apply_transformation_resolves_name_witness :
  let I3 : list (list R) := rotation_x_spec 0%R in
  let Z3 : list (list R) := valarray2d (valarray 3) 3 in
  (_get_rotationMatrix Z3 I3 Z3 Z3 Z3 Z3 "icrs2Gal" = Ok I3
   ∧ apply_transformation Z3 I3 Z3 Z3 Z3 Z3 "icrs2Gal" 10%R 20%R true =
       transform_with_matrix I3 10%R 20%R true)
  ∧ (_get_rotationMatrix Z3 I3 Z3 Z3 Z3 Z3 "GAL2EQU" =
       Throw UnknownTransformationError
     ∧ apply_transformation Z3 I3 Z3 Z3 Z3 Z3 "GAL2EQU" 10%R 20%R true =
       Throw UnknownTransformationError).
Proof.
  intros I3 Z3. split.
  - destruct (apply_transformation_resolves_name Z3 I3 Z3 Z3 Z3 Z3
                "icrs2Gal" 10%R 20%R true) as (_ & Hicrs2gal & _).
    by apply Hicrs2gal.
  - destruct (apply_transformation_resolves_name Z3 I3 Z3 Z3 Z3 Z3
                "GAL2EQU" 10%R 20%R true)
      as (_ & _ & _ & _ & _ & _ & Hunknown).
    apply Hunknown. by repeat constructor.
Defined.


(** The parser run on binary64: "10:30:00" is exactly 10.5. *)
Lemma parseDmsToDegrees_binary64_example :
  ∀ pi libm_cos libm_sin libm_atan2,
    parseDmsToDegrees (H:=binary64 pi libm_cos libm_sin libm_atan2)
      (@stod_digits _ (binary64 pi libm_cos libm_sin libm_atan2))
      "10:30:00" ":"
    = Ok (PrimFloat.div (float_of_Z 21) (float_of_Z 2)).
Proof. intros. vm_compute. reflexivity. Qed.

(** * Further properties of the code *)

(** ** Tokens of [split_string] *)

Lemma string_app_cons c (a b : string) :
  String c a +:+ b = String c (a +:+ b).
Proof. reflexivity. Qed.

Lemma string_app_nil_r (s : string) : s +:+ "" = s.
Proof.
  induction s as [|c s IH]; [done|]. by rewrite string_app_cons, IH.
Qed.

Lemma string_app_assoc (a b c : string) : (a +:+ b) +:+ c = a +:+ (b +:+ c).
Proof.
  induction a as [|x a IH]; [done|]. by rewrite !string_app_cons, IH.
Qed.

Lemma has_char_app c (a b : string) :
  has_char c (a +:+ b) = has_char c a || has_char c b.
Proof.
  induction a as [|x a IH]; [done|]. rewrite string_app_cons. simpl.
  rewrite IH. by destruct (Ascii.eqb x c).
Qed.

(** X1: whatever [skip_empty] is, no token returned by [split_string]
    contains the delimiter. *)
Theorem split_string_tokens_without_delimiter s delim skip_empty :
  Forall (λ t, has_char delim t = false) (split_string s delim skip_empty).
Proof.
  cut (∀ item, has_char delim item = false →
         Forall (λ t, has_char delim t = false)
           (split_loop s delim skip_empty item)).
  { intros Hloop. by apply Hloop. }
  induction s as [|c s IH]; intros item Hitem; simpl.
  - case_bool_decide; by repeat constructor.
  - destruct (Ascii.eqb c delim) eqn:Hc.
    + apply Forall_app. split; [|by apply IH].
      case_bool_decide; [by repeat constructor|].
      destruct skip_empty; simpl; by repeat constructor.
    + apply IH. rewrite has_char_app, Hitem. simpl. by rewrite Hc.
Qed.

Lemma split_loop_keep_nonempty s delim item :
  s ≠ "" ∨ item ≠ "" → split_loop s delim false item ≠ [].
Proof.
  revert item. induction s as [|c s IH]; intros item Hne; simpl.
  - destruct Hne as [|Hitem]; [done|]. rewrite bool_decide_true; [done|].
    destruct item; simpl; [done|lia].
  - destruct (Ascii.eqb c delim).
    + case_bool_decide; done.
    + apply IH. right. by destruct item.
Qed.

(** X2: with [skip_empty] unset, writing the tokens with the delimiter in
    between gives back the input, short of its final delimiter when it ends
    with one. *)
Theorem split_string_keep_empty_join s delim :
  join delim (split_string s delim false)
    +:+ (if ends_with delim s then String delim "" else "")
  = s.
Proof.
  cut (∀ item, join delim (split_loop s delim false item)
                 +:+ (if ends_with delim s then String delim "" else "")
               = item +:+ s).
  { intros Hloop. apply (Hloop ""). }
  induction s as [|c s IH]; intros item.
  - simpl. rewrite !string_app_nil_r. destruct item; done.
  - cbn [split_loop]. destruct (Ascii.eqb c delim) eqn:Hc.
    + apply Ascii.eqb_eq in Hc as ->.
      assert ((if bool_decide (0 < String.length item) then [item]
               else if negb false then [item] else []) = [item]) as ->
        by (by case_bool_decide).
      destruct s as [|c' s].
      * simpl. by rewrite Ascii.eqb_refl.
      * specialize (IH "").
        change (ends_with delim (String delim (String c' s)))
          with (ends_with delim (String c' s)).
        destruct (split_loop (String c' s) delim false "") as [|t ts] eqn:Hts.
        { by destruct (split_loop_keep_nonempty (String c' s) delim "");
            [left|]. }
        change (join delim ([item] ++ t :: ts))
          with (item +:+ String delim (join delim (t :: ts))).
        rewrite string_app_assoc, string_app_cons. by rewrite IH.
    + specialize (IH (item +:+ String c "")).
      rewrite string_app_assoc in IH.
      change (String c "" +:+ s) with (String c s) in IH. rewrite <- IH.
      destruct s as [|c' s]; [|done]. simpl. by rewrite Hc.
Qed.

(** ** More on angle parsing *)

Section MoreParsingFacts.
Context {D : Type} `{Double D}.
Variable stod : string → outcome D.
Local Open Scope double_scope.

(** X3: an input with more than three non-empty fields is refused with the
    length error "Wrong input format" by both parsers, before any token is
    converted. *)
Theorem parse_more_than_three_fields dms delimiter :
  3 < length (filter nonempty (fields dms delimiter)) →
  parseDmsToDegrees stod dms delimiter = Throw FormatError
  ∧ parseHmsToDegrees stod dms delimiter = Throw FormatError.
Proof.
  intros Hlen. rewrite <- split_string_fields in Hlen.
  unfold parseHmsToDegrees.
  by rewrite (parseDmsToDegrees_too_many stod dms delimiter Hlen).
Qed.

(** X4: on an input with exactly three non-empty fields that [stod]
    converts to d, m and s, [parseDmsToDegrees] returns d + (m + s/60)/60
    and [parseHmsToDegrees] fifteen times that. *)
Theorem parse_three_numeric_fields dms delimiter t0 t1 t2 d m s :
  filter nonempty (fields dms delimiter) = [t0; t1; t2] →
  stod t0 = Ok d → stod t1 = Ok m → stod t2 = Ok s →
  parseDmsToDegrees stod dms delimiter = Ok (d + (m + s / lit 60) / lit 60)
  ∧ parseHmsToDegrees stod dms delimiter =
      Ok ((d + (m + s / lit 60) / lit 60) * lit 15).
Proof.
  intros Hf H0 H1 H2. rewrite <- split_string_fields in Hf.
  unfold parseHmsToDegrees.
  rewrite (parseDmsToDegrees_three stod dms delimiter t0 t1 t2 Hf).
  by rewrite H0, H1, H2.
Qed.

(** X5: on an input with exactly three non-empty fields of which [stod]
    refuses one and converts the other two, both parsers end with the
    exception [stod] raised. *)
Theorem parse_one_bad_field dms delimiter t0 t1 t2 e :
  filter nonempty (fields dms delimiter) = [t0; t1; t2] →
  (stod t0 = Throw e ∧ (∃ m, stod t1 = Ok m) ∧ (∃ s, stod t2 = Ok s))
  ∨ ((∃ d, stod t0 = Ok d) ∧ stod t1 = Throw e ∧ (∃ s, stod t2 = Ok s))
  ∨ ((∃ d, stod t0 = Ok d) ∧ (∃ m, stod t1 = Ok m) ∧ stod t2 = Throw e) →
  parseDmsToDegrees stod dms delimiter = Throw e
  ∧ parseHmsToDegrees stod dms delimiter = Throw e.
Proof.
  intros Hf Hbad. rewrite <- split_string_fields in Hf.
  unfold parseHmsToDegrees.
  rewrite (parseDmsToDegrees_three stod dms delimiter t0 t1 t2 Hf).
  destruct Hbad as [(-> & _ & _)|[([d ->] & -> & _)|([d ->] & [m ->] & ->)]];
    done.
Qed.
End MoreParsingFacts.

Lemma parse_more_than_three_fields_witness :
  parseDmsToDegrees (D:=R) stod_digits "1:2::3:4" ":" = Throw FormatError
  ∧ parseHmsToDegrees (D:=R) stod_digits "1:2::3:4" ":" = Throw FormatError.
Proof.
  apply (parse_more_than_three_fields (D:=R) stod_digits "1:2::3:4" ":").
  vm_compute. lia.
Defined.

Lemma parse_three_numeric_fields_witness :
  parseDmsToDegrees (D:=R) stod_digits "12:30:36" ":" =
    Ok (12 + (30 + 36 / 60) / 60)%R
  ∧ parseHmsToDegrees (D:=R) stod_digits "12:30:36" ":" =
    Ok ((12 + (30 + 36 / 60) / 60) * 15)%R.
Proof.
  refine (parse_three_numeric_fields (D:=R) stod_digits "12:30:36" ":"
            "12" "30" "36" 12%R 30%R 36%R _ _ _ _); reflexivity.
Defined.

Lemma parse_one_bad_field_witness :
  parseDmsToDegrees (D:=R) stod_digits "12:x:36" ":" =
    Throw (invalid_argument "stod")
  ∧ parseHmsToDegrees (D:=R) stod_digits "12:x:36" ":" =
    Throw (invalid_argument "stod").
Proof.
  apply (parse_one_bad_field (D:=R) stod_digits "12:x:36" ":" "12" "x" "36");
    [reflexivity|].
  right. left. split; [by eexists|]. split; [reflexivity|by eexists].
Defined.

(** ** Vectors *)

Section VectorFacts.
Context {D : Type} `{Double D}.
Local Open Scope double_scope.
Implicit Types (x y : list D) (f g : nat → D).

Lemma at_index_ventry x i : i < length x → at_index x i = Ok (ventry x i).
Proof.
  intros Hi. destruct (lookup_lt_is_Some_2 x i Hi) as [a Ha].
  unfold ventry. rewrite (at_index_Ok _ _ _ Ha), Ha. done.
Qed.

Lemma set_index_ventry y i v :
  i < length y →
  ∃ y', set_index y i v = Ok y' ∧ length y' = length y ∧
    ∀ i', ventry y' i' = if decide (i' = i) then v else ventry y i'.
Proof.
  intros Hi. exists (<[i:=v]> y). split; [by apply set_index_Ok|].
  split; [by rewrite length_insert|]. intros i'. unfold ventry.
  destruct (decide (i' = i)) as [->|Hne].
  - by rewrite list_lookup_insert_eq.
  - by rewrite list_lookup_insert_ne.
Qed.

Lemma vec_ext x y n :
  length x = n → length y = n →
  (∀ i, i < n → ventry x i = ventry y i) → x = y.
Proof.
  intros Hx Hy Hent. apply list_eq. intros i.
  destruct (decide (i < n)) as [Hi|Hi].
  - specialize (Hent i Hi). unfold ventry in Hent.
    destruct (lookup_lt_is_Some_2 x i) as [a Ha]; [lia|].
    destruct (lookup_lt_is_Some_2 y i) as [b Hb]; [lia|].
    rewrite Ha, Hb in Hent |- *. simpl in Hent. by f_equal.
  - by rewrite !lookup_ge_None_2 by lia.
Qed.

Lemma length_vec_of n f : length (vec_of n f) = n.
Proof. unfold vec_of. by rewrite length_fmap, length_seq. Qed.

Lemma ventry_vec_of n f i : i < n → ventry (vec_of n f) i = f i.
Proof.
  intros Hi. unfold ventry, vec_of.
  by rewrite list_lookup_fmap, lookup_seq_lt.
Qed.

Lemma length_valarray m : length (valarray (D:=D) m) = m.
Proof. apply length_replicate. Qed.

Lemma ventry_valarray m i : ventry (valarray m) i = lit 0.
Proof.
  unfold ventry, valarray. destruct (decide (i < m)) as [Hi|Hi].
  - by rewrite lookup_replicate_2.
  - by rewrite (proj1 (lookup_replicate_None _ _ _)) by lia.
Qed.

Lemma sum_upto_ext n f g :
  (∀ k, k < n → f k = g k) → sum_upto n f = sum_upto n g.
Proof.
  induction n as [|n IH]; intros Hfg; simpl; [done|].
  rewrite IH, Hfg by (intros; auto with lia). done.
Qed.

(** A loop that adds [f 0], ..., [f (n-1)] into the slot [p] of a vector
    that holds zero there. *)
Lemma accumulate_slot (body : nat → list D → outcome (list D)) f p n m y :
  p < m → length y = m → ventry y p = lit 0 →
  (∀ k y', k < n → length y' = m →
     body k y' = set_index y' p (ventry y' p + f k)) →
  ∃ y', for_range n body y = Ok y' ∧ length y' = m ∧
    ∀ i', ventry y' i' =
      if decide (i' = p) then sum_upto n f else ventry y i'.
Proof.
  intros Hp Hy Hzero Hbody.
  edestruct (for_range_inv (λ k y', length y' = m ∧ ∀ i', ventry y' i' =
    if decide (i' = p) then sum_upto k f else ventry y i') n body y)
    as (y' & Hrun & Hy' & Hent); [| |exists y'; eauto].
  - split; [done|]. intros i'. case_decide as Hi; [|done]. by subst.
  - intros k y1 Hk [Hy1 Hent]. rewrite Hbody by done.
    destruct (set_index_ventry y1 p (ventry y1 p + f k)) as (y2 & -> & Hy2 & Hent2);
      [lia|].
    exists y2. split; [done|]. split; [lia|]. intros i'.
    rewrite Hent2, !Hent. case_decide as Hi; [|done].
    by rewrite decide_True.
Qed.

(** The two nested loops of the matrix-vector products: slot after slot of
    a vector of zeros receives its sum. *)
Lemma fill_slots (inner : nat → nat → list D → outcome (list D))
    (f : nat → nat → D) M N :
  (∀ p k y', p < M → k < N → length y' = M →
     inner p k y' = set_index y' p (ventry y' p + f p k)) →
  for_range M (λ p y, for_range N (λ k y, inner p k y) y) (valarray M)
  = Ok (vec_of M (λ p, sum_upto N (f p))).
Proof.
  intros Hinner.
  edestruct (for_range_inv (λ p y', length y' = M ∧ ∀ i', ventry y' i' =
    if decide (i' < p) then sum_upto N (f i') else lit 0) M
    (λ p y, for_range N (λ k y, inner p k y) y) (valarray M))
    as (y' & Hrun & Hy' & Hent).
  - split; [apply length_valarray|]. intros i'.
    rewrite ventry_valarray, decide_False; [done|lia].
  - intros p y1 Hp [Hy1 Hent].
    destruct (accumulate_slot (λ k y, inner p k y) (f p) p N M y1)
      as (y2 & Hrun & Hy2 & Hent2); [done|done| |by auto|].
    { rewrite Hent, decide_False; [done|lia]. }
    exists y2. split; [done|]. split; [done|]. intros i'.
    rewrite Hent2, Hent. destruct (decide (i' = p)) as [->|Hne].
    + rewrite decide_True; [done|lia].
    + destruct (decide (i' < p)).
      * rewrite decide_True; [done|lia].
      * rewrite decide_False; [done|lia].
  - rewrite Hrun. f_equal. apply (vec_ext _ _ M); [done|apply length_vec_of|].
    intros i Hi. rewrite Hent, ventry_vec_of by done.
    by rewrite decide_True.
Qed.

Lemma dot_vv_sum x y :
  length x = length y →
  dot_vv x y = Ok (sum_upto (length x) (λ i, ventry x i * ventry y i)).
Proof.
  intros Hlen. unfold dot_vv. rewrite decide_False by (by intros ?).
  edestruct (for_range_inv (λ k s,
    s = sum_upto k (λ i, ventry x i * ventry y i)) (length x))
    as (s & -> & ->); [| |done].
  - done.
  - intros k s Hk ->. rewrite !at_index_ventry by lia. simpl. eauto.
Qed.

(** X6: [dot] of two vectors raises the length error "Illegal vector
    dimensions." exactly when their sizes differ, and otherwise returns
    the products x[i] * y[i] added in index order to 0.0; it never indexes
    out of range. *)
Theorem dot_vv_cases x y :
  (length x ≠ length y →
     dot_vv x y = Throw (length_error "Illegal vector dimensions."))
  ∧ (length x = length y →
     dot_vv x y = Ok (sum_upto (length x) (λ i, ventry x i * ventry y i))).
Proof.
  split.
  - intros Hne. unfold dot_vv. by rewrite decide_True.
  - apply dot_vv_sum.
Qed.
End VectorFacts.

Lemma dot_vv_cases_witness :
  dot_vv (D:=R) [1%R; 2%R] [3%R] =
    Throw (length_error "Illegal vector dimensions.")
  ∧ dot_vv (D:=R) [1%R; 2%R] [3%R; 4%R] = Ok (0 + 1 * 3 + 2 * 4)%R.
Proof.
  split.
  - apply (dot_vv_cases (D:=R) [1%R; 2%R] [3%R]). simpl. lia.
  - exact (proj2 (dot_vv_cases (D:=R) [1%R; 2%R] [3%R; 4%R]) eq_refl).
Defined.

(** ** Transpose and the matrix-vector products *)

Section TransposeFacts.
Context {D : Type} `{Double D}.
Local Open Scope double_scope.
Implicit Types (A : list (list D)) (x : list D).

Lemma entry_out_of_shape A m n i j :
  shape A m n → ¬ (i < m ∧ j < n) → entry A i j = lit 0.
Proof.
  intros [Hm Hrows] Hij. unfold entry.
  destruct (A !! i) as [row|] eqn:Hrow; [|done]. simpl.
  assert (i < m) by (rewrite <- Hm; by eapply lookup_lt_Some).
  assert (length row = n) by (by apply (Forall_lookup_1 _ _ _ _ Hrows Hrow)).
  by rewrite lookup_ge_None_2 by lia.
Qed.

Lemma transpose_loops A m n :
  shape A m n → 0 < m →
  transpose A =
    for_range m (λ i C, for_range n (λ j C,
      a ← get2 A i j; set2 C j i a) C) (valarray2d (valarray m) n).
Proof.
  intros HA Hm. destruct (shape_lookup A m n 0 HA Hm) as (A0 & HA0 & Hlen).
  unfold transpose. rewrite (at_index_Ok _ _ _ HA0). simpl.
  destruct HA as [-> _]. by rewrite Hlen.
Qed.

Lemma transpose_spec A m n :
  shape A m n → 0 < m →
  transpose A = Ok (mat_of n m (λ j i, entry A i j)).
Proof.
  intros HA Hm. rewrite (transpose_loops A m n) by done.
  edestruct (for_range_inv (λ i C, shape C n m ∧ ∀ a b, entry C a b =
    if decide (a < n ∧ b < i) then entry A b a else lit 0) m
    (λ i C, for_range n (λ j C, a ← get2 A i j; set2 C j i a) C)
    (valarray2d (valarray m) n)) as (C & Hrun & HC & Hent).
  - split; [apply shape_valarray2d|]. intros a b.
    rewrite entry_valarray2d, decide_False; [done|lia].
  - intros i C Hi [HC Hent].
    edestruct (for_range_inv (λ j C', shape C' n m ∧ ∀ a b, entry C' a b =
      if decide (b = i ∧ a < j) then entry A i a else entry C a b) n
      (λ j C, a ← get2 A i j; set2 C j i a) C) as (C' & Hrun & HC' & Hent').
    + split; [done|]. intros a b. rewrite decide_False; [done|lia].
    + intros j C1 Hj [HC1 Hent1].
      rewrite (get2_entry A m n) by done. simpl.
      destruct (set2_entry C1 n m j i (entry A i j)) as (C2 & -> & HC2 & Hent2);
        [done..|].
      exists C2. split; [done|]. split; [done|]. intros a b.
      rewrite Hent2, Hent1. destruct (decide (a = j ∧ b = i)) as [[-> ->]|Hne].
      * rewrite decide_True; [done|lia].
      * destruct (decide (b = i ∧ a < j)).
        -- rewrite decide_True; [done|lia].
        -- rewrite decide_False; [done|lia].
    + exists C'. split; [done|]. split; [done|]. intros a b.
      rewrite Hent', Hent. destruct (decide (b = i ∧ a < n)) as [[-> ?]|Hne].
      * rewrite decide_True; [done|lia].
      * destruct (decide (a < n ∧ b < i)).
        -- rewrite decide_True; [done|lia].
        -- rewrite decide_False; [done|lia].
  - rewrite Hrun. f_equal. apply (shape_ext _ _ n m); [done|apply shape_mat_of|].
    intros a b Ha Hb. rewrite Hent, entry_mat_of by done.
    by rewrite decide_True.
Qed.

(** X7: the transpose of a well-formed [m] x [n] matrix with at least one
    row is returned as the [n] x [m] matrix whose entry [j][i] is
    [A[i][j]]. *)
Theorem transpose_well_formed A m n :
  shape A m n → 0 < m →
  ∃ C, transpose A = Ok C ∧ shape C n m
       ∧ ∀ i j, i < m → j < n → entry C j i = entry A i j.
Proof.
  intros HA Hm. exists (mat_of n m (λ j i, entry A i j)).
  split; [by apply transpose_spec|]. split; [apply shape_mat_of|].
  intros i j Hi Hj. by rewrite entry_mat_of.
Qed.

(** X8: transposing twice gives back a well-formed matrix that has at least
    one row and one column. *)
Theorem transpose_involutive A m n :
  shape A m n → 0 < m → 0 < n →
  (C ← transpose A; transpose C) = Ok A.
Proof.
  intros HA Hm Hn. rewrite (transpose_spec A m n) by done. simpl.
  rewrite (transpose_spec _ n m) by (done || apply shape_mat_of).
  f_equal. symmetry. apply (shape_ext _ _ m n); [done|apply shape_mat_of|].
  intros i j Hi Hj. by rewrite !entry_mat_of.
Qed.

(** X9: a matrix whose rows are empty is transposed to the matrix without
    rows, which [transpose] cannot take back: the second call indexes out of
    range. *)
Theorem transpose_no_columns A m :
  shape A m 0 → 0 < m →
  transpose A = Ok [] ∧ (C ← transpose A; transpose C) = OutOfBounds.
Proof.
  intros HA Hm. by rewrite (transpose_spec A m 0).
Qed.

Lemma dot_mv_spec A x m n :
  shape A m n → 0 < m → length x = n →
  dot_mv A x = Ok (vec_of m (λ i, sum_upto n (λ j, entry A i j * ventry x j))).
Proof.
  intros HA Hm Hx. destruct (shape_lookup A m n 0 HA Hm) as (A0 & HA0 & Hlen).
  unfold dot_mv. rewrite (at_index_Ok _ _ _ HA0). simpl.
  rewrite decide_False by lia. rewrite Hlen.
  destruct HA as [HlenA HrowsA]. rewrite HlenA.
  apply (fill_slots (λ i j y, yi ← at_index y i; a ← get2 A i j;
    xj ← at_index x j; set_index y i (yi + a * xj))
    (λ i j, entry A i j * ventry x j)).
  intros i j y' Hi Hj Hy'.
  rewrite (at_index_ventry y'), (get2_entry A m n), (at_index_ventry x)
    by (done || lia). done.
Qed.

Lemma dot_vm_spec A x m n :
  shape A m n → 0 < m → length x = m →
  dot_vm x A = Ok (vec_of n (λ j, sum_upto m (λ i, entry A i j * ventry x i))).
Proof.
  intros HA Hm Hx. destruct (shape_lookup A m n 0 HA Hm) as (A0 & HA0 & Hlen).
  unfold dot_vm. rewrite (at_index_Ok _ _ _ HA0). simpl.
  destruct HA as [HlenA HrowsA]. rewrite HlenA.
  rewrite decide_False by lia. rewrite Hlen.
  apply (fill_slots (λ j i y, yj ← at_index y j; a ← get2 A i j;
    xi ← at_index x i; set_index y j (yj + a * xi))
    (λ j i, entry A i j * ventry x i)).
  intros j i y' Hj Hi Hy'.
  rewrite (at_index_ventry y'), (get2_entry A m n), (at_index_ventry x)
    by (done || lia). done.
Qed.

Lemma dot_mv_mismatch A x m n :
  shape A m n → 0 < m → length x ≠ n → dot_mv A x = Throw DimensionError.
Proof.
  intros HA Hm Hx. destruct (shape_lookup A m n 0 HA Hm) as (A0 & HA0 & Hlen).
  unfold dot_mv. rewrite (at_index_Ok _ _ _ HA0). simpl.
  rewrite decide_True; [done|lia].
Qed.

Lemma dot_vm_mismatch A x m n :
  shape A m n → 0 < m → length x ≠ m → dot_vm x A = Throw DimensionError.
Proof.
  intros HA Hm Hx. destruct (shape_lookup A m n 0 HA Hm) as (A0 & HA0 & Hlen).
  unfold dot_vm. rewrite (at_index_Ok _ _ _ HA0). simpl.
  destruct HA as [HlenA _]. rewrite decide_True; [done|lia].
Qed.

(** X10: for a well-formed [m] x [n] matrix with at least one row,
    [dot(A, x)] raises the dimension error exactly when [x] has not [n]
    entries, and otherwise returns the [m] sums over j of A[i][j] * x[j],
    each added in index order to 0.0. *)
Theorem dot_mv_cases A x m n :
  shape A m n → 0 < m →
  (length x ≠ n → dot_mv A x = Throw DimensionError)
  ∧ (length x = n →
     dot_mv A x =
       Ok (vec_of m (λ i, sum_upto n (λ j, entry A i j * ventry x j)))).
Proof.
  intros HA Hm. split; [by apply (dot_mv_mismatch A x m n)|by apply dot_mv_spec].
Qed.

(** X11: for a well-formed [m] x [n] matrix with at least one row,
    [dot(x, A)] raises the dimension error exactly when [x] has not [m]
    entries, and otherwise returns the [n] sums over i of A[i][j] * x[i],
    each added in index order to 0.0. *)
Theorem dot_vm_cases A x m n :
  shape A m n → 0 < m →
  (length x ≠ m → dot_vm x A = Throw DimensionError)
  ∧ (length x = m →
     dot_vm x A =
       Ok (vec_of n (λ j, sum_upto m (λ i, entry A i j * ventry x i)))).
Proof.
  intros HA Hm. split; [by apply (dot_vm_mismatch A x m n)|by apply dot_vm_spec].
Qed.

(** X12: for a well-formed matrix with at least one row and one column,
    the row-vector product [dot(x, A)] is the matrix-vector product of the
    transpose, [dot(transpose(A), x)]: same outcome, and the same sums when
    [x] fits. *)
Theorem dot_vm_as_dot_mv_transpose A x m n :
  shape A m n → 0 < m → 0 < n →
  dot_vm x A = (T ← transpose A; dot_mv T x).
Proof.
  intros HA Hm Hn. rewrite (transpose_spec A m n) by done. simpl.
  pose proof (shape_mat_of n m (λ j i, entry A i j)) as HT.
  destruct (decide (length x = m)) as [Hx|Hx].
  - rewrite (dot_vm_spec A x m n), (dot_mv_spec _ x n m) by done.
    f_equal. apply (vec_ext _ _ n); [apply length_vec_of..|].
    intros j Hj. rewrite !ventry_vec_of by done.
    apply sum_upto_ext. intros i Hi. by rewrite entry_mat_of.
  - rewrite (dot_vm_mismatch A x m n), (dot_mv_mismatch _ x n m) by done.
    done.
Qed.
End TransposeFacts.

Lemma transpose_well_formed_witness :
  ∃ C, transpose (D:=R) [[1%R; 2%R; 3%R]; [4%R; 5%R; 6%R]] = Ok C
       ∧ shape C 3 2
       ∧ ∀ i j, i < 2 → j < 3 →
           entry C j i = entry [[1%R; 2%R; 3%R]; [4%R; 5%R; 6%R]] i j.
Proof.
  apply (transpose_well_formed (D:=R) _ 2 3); [|lia].
  split; [reflexivity|repeat constructor].
Defined.

Lemma transpose_involutive_witness :
  (C ← transpose (D:=R) [[1%R; 2%R; 3%R]; [4%R; 5%R; 6%R]]; transpose C)
  = Ok [[1%R; 2%R; 3%R]; [4%R; 5%R; 6%R]].
Proof.
  apply (transpose_involutive (D:=R) _ 2 3); [|lia|lia].
  split; [reflexivity|repeat constructor].
Defined.

Lemma transpose_no_columns_witness :
  transpose (D:=R) [[]; []] = Ok []
  ∧ (C ← transpose (D:=R) [[]; []]; transpose C) = OutOfBounds.
Proof.
  apply (transpose_no_columns (D:=R) _ 2); [|lia].
  split; [reflexivity|repeat constructor].
Defined.

Lemma dot_mv_cases_witness :
  dot_mv (D:=R) [[1%R; 2%R; 3%R]; [4%R; 5%R; 6%R]] [1%R; 0%R]
    = Throw DimensionError
  ∧ dot_mv (D:=R) [[1%R; 2%R; 3%R]; [4%R; 5%R; 6%R]] [1%R; 0%R; 2%R]
    = Ok [(0 + 1 * 1 + 2 * 0 + 3 * 2)%R; (0 + 4 * 1 + 5 * 0 + 6 * 2)%R].
Proof.
  assert (shape [[1%R; 2%R; 3%R]; [4%R; 5%R; 6%R]] 2 3) as Hshape
    by (split; [reflexivity|repeat constructor]).
  split.
  - apply (dot_mv_cases (D:=R) _ [1%R; 0%R] 2 3 Hshape); simpl; lia.
  - exact (proj2 (dot_mv_cases (D:=R) _ [1%R; 0%R; 2%R] 2 3 Hshape
                    (Nat.lt_0_succ 1)) eq_refl).
Defined.

Lemma dot_vm_cases_witness :
  dot_vm (D:=R) [1%R; 0%R; 2%R] [[1%R; 2%R; 3%R]; [4%R; 5%R; 6%R]]
    = Throw DimensionError
  ∧ dot_vm (D:=R) [1%R; 2%R] [[1%R; 2%R; 3%R]; [4%R; 5%R; 6%R]]
    = Ok [(0 + 1 * 1 + 4 * 2)%R; (0 + 2 * 1 + 5 * 2)%R; (0 + 3 * 1 + 6 * 2)%R].
Proof.
  assert (shape [[1%R; 2%R; 3%R]; [4%R; 5%R; 6%R]] 2 3) as Hshape
    by (split; [reflexivity|repeat constructor]).
  split.
  - apply (dot_vm_cases (D:=R) _ [1%R; 0%R; 2%R] 2 3 Hshape); simpl; lia.
  - exact (proj2 (dot_vm_cases (D:=R) _ [1%R; 2%R] 2 3 Hshape
                    (Nat.lt_0_succ 1)) eq_refl).
Defined.

Lemma dot_vm_as_dot_mv_transpose_witness :
  dot_vm (D:=R) [1%R; 2%R] [[1%R; 2%R; 3%R]; [4%R; 5%R; 6%R]]
  = (T ← transpose [[1%R; 2%R; 3%R]; [4%R; 5%R; 6%R]];
     dot_mv T [1%R; 2%R]).
Proof.
  apply (dot_vm_as_dot_mv_transpose (D:=R) _ _ 2 3); [|lia|lia].
  split; [reflexivity|repeat constructor].
Defined.

(** ** More on the matrix product *)

Section MoreDotFacts.
Context {D : Type} `{Double D}.
Local Open Scope double_scope.
Implicit Types (A B : list (list D)).

(** X13: for well-formed matrices [A] ([m] x [n]) and [B] ([n] x [m]) with
    no dimension zero, so that the product is square, [dot(A, B)] returns
    the [m] x [m] matrix whose entry [i][j] is the sum over k of
    A[i][k] * B[k][j], added in index order to 0.0. *)
Theorem dot_mm_square_product A B m n :
  shape A m n → shape B n m → 0 < m → 0 < n →
  ∃ C, dot_mm A B = Ok C ∧ shape C m m
       ∧ ∀ i j, i < m → j < m →
           entry C i j = sum_upto n (λ k, entry A i k * entry B k j).
Proof.
  intros HA HB Hm Hn. exists (matmul_spec A B m n m).
  split; [by apply dot_mm_square|]. split; [apply shape_mat_of|].
  intros i j Hi Hj. unfold matmul_spec. by rewrite entry_mat_of.
Qed.

(** X14: for well-formed matrices with at least one row each, [dot(A, B)]
    raises the dimension error when the number of columns of [A] differs
    from the number of rows of [B]. *)
Theorem dot_mm_inner_dimension_mismatch A B mA nA mB nB :
  shape A mA nA → shape B mB nB → 0 < mA → 0 < mB → nA ≠ mB →
  dot_mm A B = Throw DimensionError.
Proof.
  intros HA HB HmA HmB Hne.
  destruct (shape_lookup A mA nA 0 HA HmA) as (A0 & HA0 & HlenA0).
  destruct (shape_lookup B mB nB 0 HB HmB) as (B0 & HB0 & HlenB0).
  apply (dot_mm_mismatch A B A0 B0 HA0 HB0).
  destruct HB as [-> _]. lia.
Qed.

(** X15: when the rows of [B] are empty, [dot(A, B)] returns the matrix
    without rows, not [mA] empty rows. *)
Theorem dot_mm_no_columns A B mA nA :
  shape A mA nA → shape B nA 0 → 0 < mA → 0 < nA →
  dot_mm A B = Ok [].
Proof.
  intros HA HB HmA HnA. rewrite (dot_mm_loops A B mA nA 0) by done.
  edestruct (for_range_inv (λ _ C, C = @nil (list D)) mA
    (λ i C, for_range 0 (λ j C,
       for_range nA (λ k C, dot_mm_step A B i j k C) C) C) [])
    as (C & Hrun & ->); [done| |exact Hrun].
  intros i C Hi ->. by exists [].
Qed.
End MoreDotFacts.

Lemma dot_mm_square_product_witness :
  ∃ C, dot_mm (D:=R) [[1%R; 2%R; 3%R]; [4%R; 5%R; 6%R]]
         [[1%R; 0%R]; [0%R; 1%R]; [1%R; 1%R]] = Ok C
       ∧ shape C 2 2
       ∧ ∀ i j, i < 2 → j < 2 →
           entry C i j =
             sum_upto 3 (λ k,
               (entry [[1%R; 2%R; 3%R]; [4%R; 5%R; 6%R]] i k *
                entry [[1%R; 0%R]; [0%R; 1%R]; [1%R; 1%R]] k j)%D).
Proof.
  apply (dot_mm_square_product (D:=R) _ _ 2 3); try lia.
  - split; [reflexivity|repeat constructor].
  - split; [reflexivity|repeat constructor].
Defined.

Lemma dot_mm_inner_dimension_mismatch_witness :
  dot_mm (D:=R) [[1%R; 2%R; 3%R]; [4%R; 5%R; 6%R]] [[1%R; 0%R]; [0%R; 1%R]]
  = Throw DimensionError.
Proof.
  apply (dot_mm_inner_dimension_mismatch (D:=R) _ _ 2 3 2 2); try lia.
  - split; [reflexivity|repeat constructor].
  - split; [reflexivity|repeat constructor].
Defined.

Lemma dot_mm_no_columns_witness :
  dot_mm (D:=R) [[1%R; 2%R]] [[]; []] = Ok [].
Proof.
  apply (dot_mm_no_columns (D:=R) _ _ 1 2); try lia.
  - split; [reflexivity|repeat constructor].
  - split; [reflexivity|repeat constructor].
Defined.

(** ** The transformation pipeline *)

Section PipelineFacts.
Context {D : Type} `{Double D}.
Local Open Scope double_scope.
Variables GalacticToIcrs IcrsToGalactic EclipticToIcrs IcrsToEcliptic
          GalacticToEcliptic EclipticToGalactic : list (list D).

Local Abbreviation get_rotationMatrix :=
  (_get_rotationMatrix GalacticToIcrs IcrsToGalactic EclipticToIcrs
     IcrsToEcliptic GalacticToEcliptic EclipticToGalactic).
Local Abbreviation apply_transformation' :=
  (apply_transformation GalacticToIcrs IcrsToGalactic EclipticToIcrs
     IcrsToEcliptic GalacticToEcliptic EclipticToGalactic).

(** X16: with [use_degrees] set, [apply_transformation] is the radian
    computation on the inputs converted by [radians], with both results
    converted back by [degrees]; failures are the same. *)
Theorem apply_transformation_degrees name phi theta :
  apply_transformation' name phi theta true =
    (ab ← apply_transformation' name (radians phi) (radians theta) false;
     Ok (map degrees ab)).
Proof.
  unfold apply_transformation. simpl.
  destruct (get_rotationMatrix name) as [mat| |]; simpl; [|done..].
  destruct (dot_mv mat _) as [xyzrot| |]; simpl; [|done..].
  destruct (at_index xyzrot 0) as [x'| |]; simpl; [|done..].
  destruct (at_index xyzrot 1) as [y'| |]; simpl; [|done..].
  destruct (at_index xyzrot 2) as [z'| |]; simpl; [|done..].
  unfold cartesianToSpherical. by destruct (d_eqb _ _).
Qed.

(** X17: when the name selects a well-formed 3x3 matrix [M], the radian
    form of [apply_transformation] takes the Cartesian vector v of
    (1, phi, theta), forms w = M v row by row, raises the domain error when
    the radius computed from w is zero and otherwise returns the two angles
    of w without the radius; it raises no other error and indexes nothing
    out of range. *)
Theorem apply_transformation_radians name phi theta M :
  get_rotationMatrix name = Ok M → shape M 3 3 →
  let v := sphericalToCartesian (lit 1) phi theta in
  let w i := sum_upto 3 (λ j, entry M i j * ventry v j) in
  apply_transformation' name phi theta false =
    if d_eqb (d_sqrt (w 0 * w 0 + w 1 * w 1 + w 2 * w 2)) (lit 0)
    then Throw DomainError
    else Ok [d_atan2 (w 1) (w 0);
             d_atan2 (w 2) (d_sqrt (w 0 * w 0 + w 1 * w 1))].
Proof.
  intros Hname HM v w. unfold apply_transformation. rewrite Hname. simpl.
  fold v. rewrite (dot_mv_spec M v 3 3) by (done || lia). simpl.
  unfold cartesianToSpherical. fold (w 0) (w 1) (w 2).
  by destruct (d_eqb _ _).
Qed.
End PipelineFacts.

Lemma apply_transformation_radians_witness :
  let I3 : list (list R) := identity3 in
  let v := sphericalToCartesian (lit 1) 1%R 0%R in
  let w i := sum_upto 3 (λ j, (entry I3 i j * ventry v j)%D) in
  apply_transformation I3 I3 I3 I3 I3 I3 "gal2icrs" 1%R 0%R false =
    if d_eqb (d_sqrt (w 0 * w 0 + w 1 * w 1 + w 2 * w 2)%D) (lit 0)
    then Throw DomainError
    else Ok [d_atan2 (w 1) (w 0);
             d_atan2 (w 2) (d_sqrt (w 0 * w 0 + w 1 * w 1)%D)].
Proof.
  intros I3.
  apply (apply_transformation_radians I3 I3 I3 I3 I3 I3 "gal2icrs" 1%R 0%R I3).
  - reflexivity.
  - split; [reflexivity|repeat constructor].
Defined.
